(** * sdxl_train_network.py: the SDXL network trainer hooks

    A shallow embedding of [SdxlNetworkTrainer] (src/sdxl_train_network.py):
    the start-up checks, the textual-inversion loader, the text-encoder
    output cache priming, the conditioning assembler and the denoiser call.

    Python objects mutated in place (modules moved between devices,
    tokenizers, embedding tables) are passed in and handed back explicitly.
    Exceptions are values of [exn]; calls to collaborators that live outside
    the file (the dataset group, the tokenizers, the text encoders, the
    denoiser) are parameters, and each call is recorded in a trace. *)

From stdpp Require Import base option list strings gmap pretty.
From Stdlib Require Import ZArith Lia.

(** ** Exceptions and the result monad *)

(** The [assert] statements of the file, one tag per statement. *)
Inductive assertion :=
  | AssertCacheable        (* line 27: dataset output is cacheable *)
  | AssertUnetOnly         (* line 31: network_train_unet_only or no caching *)
  | AssertNumAdded         (* line 78: add_tokens added num_vectors_per_token *)
  | AssertIds1Ordered      (* line 86 *)
  | AssertIds2Ordered      (* line 89 *)
  | AssertIds1End          (* line 92 *)
  | AssertIds2End.         (* line 93 *)

Inductive exn :=
  | AssertionError (a : assertion)
  | KeyError (k : string)
  | AttributeError         (* attribute access on None *)
  | ValueError             (* min() of an empty sequence *)
  | IndexError             (* row index or tensor dimension out of range *)
  | RuntimeError           (* torch shape / device mismatch *)
  | UnboundLocalError
  | ExternalError (who : string).  (* raised inside a collaborator *)

(** The error taxonomy of the specification (section 7), as a
    classification of the exceptions the file itself raises. *)
Inductive spec_error :=
  | ConfigurationError
  | VocabularyConflict
  | VocabularyIntegrityError
  | ComputeFailure.

Definition taxonomy (e : exn) : spec_error :=
  match e with
  | AssertionError AssertCacheable | AssertionError AssertUnetOnly => ConfigurationError
  | AssertionError AssertNumAdded => VocabularyConflict
  | AssertionError _ => VocabularyIntegrityError
  | _ => ComputeFailure
  end.

Inductive res (X : Type) :=
  | Ok (x : X)
  | Raise (e : exn).
Arguments Ok {X} x.
Arguments Raise {X} e.

#[global] Instance res_ret : MRet res := fun _ x => Ok x.
#[global] Instance res_bind : MBind res := fun _ _ f m =>
  match m with Ok x => f x | Raise e => Raise e end.

Definition py_assert (b : bool) (a : assertion) : res unit :=
  if b then Ok tt else Raise (AssertionError a).

(** ** Devices, precisions, modules *)

Inductive device :=
  | Cpu
  | Accel (index : nat).   (* "cuda:0", "xpu:0", ... *)

Inductive dtype :=
  | Float32
  | Float16
  | BFloat16
  | Int64.

#[global] Instance device_eq_dec : EqDecision device.
Proof. solve_decision. Defined.
#[global] Instance dtype_eq_dec : EqDecision dtype.
Proof. solve_decision. Defined.

(** What the file observes of a [torch.nn.Module]: where it resides and the
    precision of its parameters. *)
Record module := Module_ {
  m_device : device;
  m_dtype : dtype;
}.

(** [module.to(device)] and [module.to(device, dtype=...)] *)
Definition module_to (d : device) (m : module) : module :=
  {| m_device := d; m_dtype := m_dtype m |}.
Definition module_to_dtype (d : device) (t : dtype) (m : module) : module :=
  {| m_device := d; m_dtype := t |}.

Record accelerator := Accelerator {
  acc_device : device;
  is_main_process : bool;
}.

(** The options of [args] the file reads. *)
Record Args := {
  cache_text_encoder_outputs : bool;
  cache_text_encoder_outputs_to_disk : bool;
  network_train_unet_only : bool;
  lowram : bool;
  full_fp16 : bool;
  max_token_length : option Z;
  textual_inversion_embeddings : list string;
  textual_inversion_name : option string;
}.

(** ** Traces *)

Inductive model_name := Vae | Unet | TextEncoder1 | TextEncoder2.

Inductive event :=
  | EvSuperAssertExtraArgs
  | EvVerifySdxlTrainingArgs
  | EvIsCacheable
  | EvVerifyBucketResoSteps (n : Z)
  | EvPrint (s : string)
  | EvTo (who : model_name) (d : device) (t : option dtype)
  | EvEmptyCache
  | EvCacheTextEncoderOutputs (d : device) (w : dtype) (to_disk is_main : bool)
  | EvGetHiddenStates      (* both text encoders are run *)
  | EvGetSizeEmbeddings
  | EvUnetForward.

(** A computation yields a trace of the calls made and a result; the trace
    made before an exception is kept. *)
Definition run (X : Type) : Type := (list event * res X)%type.

#[global] Instance run_ret : MRet run := fun _ x => ([], Ok x).
#[global] Instance run_bind : MBind run := fun _ _ f m =>
  match m with
  | (tr, Ok x) => let '(tr', r) := f x in (tr ++ tr', r)
  | (tr, Raise e) => (tr, Raise e)
  end.

Definition emit (e : event) : run unit := ([e], Ok tt).
Definition lift {X} (r : res X) : run X := ([], r).
Definition call {X} (e : event) (r : res X) : run X := ([e], r).

Definition encoder_event (e : event) : bool :=
  match e with
  | EvCacheTextEncoderOutputs _ _ _ _ | EvGetHiddenStates => true
  | _ => false
  end.

(** ** The dataset group (library/train_util.py, outside this file) *)

Class DatasetGroup (D Tok : Type) := {
  is_text_encoder_output_cacheable : D -> bool;
  verify_bucket_reso_steps : D -> Z -> res unit;
  (* runs every sample through both encoders; it may move the encoders *)
  ds_cache_text_encoder_outputs :
    D -> Tok * Tok -> module * module -> device -> dtype -> bool -> bool ->
    res (D * (module * module));
}.

(** ** assert_extra_args (lines 22-35) *)

Section AssertExtraArgs.
Context {D Tok : Type} {dsg : DatasetGroup D Tok}.
(* train_network.NetworkTrainer.assert_extra_args *)
Variable super_assert_extra_args : Args -> D -> res unit.
(* sdxl_train_util.verify_sdxl_training_args *)
Variable verify_sdxl_training_args : Args -> res unit.

Definition assert_extra_args (args : Args) (train_dataset_group : D) : run unit :=
  call EvSuperAssertExtraArgs (super_assert_extra_args args train_dataset_group);;
  call EvVerifySdxlTrainingArgs (verify_sdxl_training_args args);;
  (if cache_text_encoder_outputs args then
     cacheable ← call EvIsCacheable
                   (Ok (is_text_encoder_output_cacheable train_dataset_group));
     lift (py_assert cacheable AssertCacheable)
   else mret tt);;
  lift (py_assert (network_train_unet_only args || negb (cache_text_encoder_outputs args))
          AssertUnetOnly);;
  call (EvVerifyBucketResoSteps 32) (verify_bucket_reso_steps train_dataset_group 32).
End AssertExtraArgs.

(** ** cache_text_encoder_outputs_if_needed (lines 114-151) *)

Section Priming.
Context {D Tok : Type} {dsg : DatasetGroup D Tok}.
Variable cuda_is_available : bool.

Definition empty_cache : run unit :=
  if cuda_is_available then emit EvEmptyCache else mret tt.

(** The state the routine works on: the four models and the dataset. *)
Record models := Models {
  unet : module;
  vae : module;
  text_encoders : module * module;
  dataset : D;
}.

Definition cache_text_encoder_outputs_if_needed
    (args : Args) (acc : accelerator) (st : models) (tokenizers : Tok * Tok)
    (weight_dtype : dtype) : run models :=
  let '(Models unet0 vae0 tes0 ds0) := st in
  if cache_text_encoder_outputs args then
    '(vae1, unet1, org) ←
      (if negb (lowram args) then
         emit (EvPrint "move vae and unet to cpu to save memory");;
         let org_vae_device := m_device vae0 in
         let org_unet_device := m_device unet0 in
         emit (EvTo Vae Cpu None);;
         emit (EvTo Unet Cpu None);;
         empty_cache;;
         mret (module_to Cpu vae0, module_to Cpu unet0,
               Some (org_vae_device, org_unet_device))
       else mret (vae0, unet0, None));
    (* with accelerator.autocast(): *)
    '(ds1, (te1, te2)) ←
      call (EvCacheTextEncoderOutputs (acc_device acc) weight_dtype
              (cache_text_encoder_outputs_to_disk args) (is_main_process acc))
           (ds_cache_text_encoder_outputs ds0 tokenizers tes0 (acc_device acc)
              weight_dtype (cache_text_encoder_outputs_to_disk args)
              (is_main_process acc));
    emit (EvTo TextEncoder1 Cpu (Some Float32));;
    emit (EvTo TextEncoder2 Cpu (Some Float32));;
    let te1' := module_to_dtype Cpu Float32 te1 in
    let te2' := module_to_dtype Cpu Float32 te2 in
    empty_cache;;
    if negb (lowram args) then
      emit (EvPrint "move vae and unet back to original device");;
      match org with
      | Some (org_vae_device, org_unet_device) =>
          emit (EvTo Vae org_vae_device None);;
          emit (EvTo Unet org_unet_device None);;
          mret (Models (module_to org_unet_device unet1)
                       (module_to org_vae_device vae1) (te1', te2') ds1)
      | None => lift (Raise UnboundLocalError)
      end
    else mret (Models unet1 vae1 (te1', te2') ds1)
  else
    emit (EvTo TextEncoder1 (acc_device acc) None);;
    emit (EvTo TextEncoder2 (acc_device acc) None);;
    mret (Models unet0 vae0
            (module_to (acc_device acc) tes0.1, module_to (acc_device acc) tes0.2) ds0).
End Priming.

(** ** Tensors *)

Section Tensors.
Context {A : Type}.
(* numeric conversion of one element, [cast from to x] *)
Variable cast : dtype -> dtype -> A -> A.

(** A tensor: residency, element type, shape and the elements in row-major
    order. *)
Record tensor := Tensor {
  t_device : device;
  t_dtype : dtype;
  t_shape : list nat;
  t_data : list A;
}.

Definition numel (shape : list nat) : nat := foldr Nat.mul 1%nat shape.

Definition tensor_wf (t : tensor) : Prop := length (t_data t) = numel (t_shape t).

(** Row [i] of row-major data whose rows hold [n] elements. *)
Definition row (n i : nat) (data : list A) : list A := take n (drop (i * n) data).

(** [tensor.to(device)] *)
Definition to_device (d : device) (t : tensor) : tensor :=
  Tensor d (t_dtype t) (t_shape t) (t_data t).

(** [tensor.to(dtype)]: the tensor itself when it already has that type *)
Definition to_dtype (w : dtype) (t : tensor) : tensor :=
  if decide (t_dtype t = w) then t
  else Tensor (t_device t) w (t_shape t) (cast (t_dtype t) w <$> t_data t).

(** torch type promotion, on the types of this model *)
Definition promote_types (a b : dtype) : dtype :=
  if decide (a = b) then a
  else match a, b with
       | Int64, x | x, Int64 => x
       | _, _ => Float32
       end.

(** Row-major concatenation: [n] times, [cx] elements of [x] then [cy]
    elements of [y]. *)
Fixpoint interleave (n cx cy : nat) (x y : list A) : list A :=
  match n with
  | O => []
  | S n' => take cx x ++ take cy y ++ interleave n' cx cy (drop cx x) (drop cy y)
  end.

Definition same_except (dim : nat) (s1 s2 : list nat) : bool :=
  bool_decide (length s1 = length s2
               ∧ take dim s1 = take dim s2 ∧ drop (S dim) s1 = drop (S dim) s2).

(** A tensor of shape [(0,)]: [torch.cat] leaves such an operand out. *)
Definition cat_skipped (t : tensor) : bool := bool_decide (t_shape t = [0%nat]).

(** [torch.cat([x, y], dim)] for a [dim] counted from the front, in the
    order of torch's checks: operands on two devices and operands of rank 0
    are refused (RuntimeError); [dim] is checked against the rank of the
    first operand that is not of shape [(0,)] (IndexError); the operands
    that are not of shape [(0,)] must agree in rank and in every size but
    the one at [dim] (RuntimeError). The element type of the result is the
    promotion of those of both operands; when both are of shape [(0,)] so
    is the result. *)
Definition torch_cat (dim : nat) (x y : tensor) : res tensor :=
  if negb (bool_decide (t_device x = t_device y)) then Raise RuntimeError
  else if bool_decide (t_shape x = []) || bool_decide (t_shape y = []) then
    Raise RuntimeError
  else
    let w := promote_types (t_dtype x) (t_dtype y) in
    match cat_skipped x, cat_skipped y with
    | true, true => Ok (Tensor (t_device x) w [0%nat] [])
    | true, false =>
        if decide (dim < length (t_shape y))%nat then
          Ok (Tensor (t_device y) w (t_shape y) (t_data (to_dtype w y)))
        else Raise IndexError
    | false, true =>
        if decide (dim < length (t_shape x))%nat then
          Ok (Tensor (t_device x) w (t_shape x) (t_data (to_dtype w x)))
        else Raise IndexError
    | false, false =>
        match t_shape x !! dim, t_shape y !! dim with
        | None, _ => Raise IndexError
        | Some dx, Some dy =>
            if same_except dim (t_shape x) (t_shape y) then
              let inner := numel (drop (S dim) (t_shape x)) in
              Ok (Tensor (t_device x) w (<[dim := (dx + dy)%nat]> (t_shape x))
                    (interleave (numel (take dim (t_shape x))) (dx * inner) (dy * inner)
                       (t_data (to_dtype w x)) (t_data (to_dtype w y))))
            else Raise RuntimeError
        | Some _, None => Raise RuntimeError
        end
    end.

(** Values found in a batch: a tensor or [None]. *)
Inductive pyval :=
  | PyNone
  | PyTensor (t : tensor).

Definition py_getitem (batch : gmap string pyval) (k : string) : res pyval :=
  match batch !! k with
  | Some v => Ok v
  | None => Raise (KeyError k)
  end.

(** [k not in batch or batch[k] is None] *)
Definition absent_or_none (batch : gmap string pyval) (k : string) : bool :=
  match batch !! k with
  | None | Some PyNone => true
  | Some (PyTensor _) => false
  end.

Definition as_tensor (v : pyval) : res tensor :=
  match v with
  | PyTensor t => Ok t
  | PyNone => Raise AttributeError
  end.

(** ** get_text_cond (lines 153-204) *)

Section TextCond.
Context {Tok Enc : Type}.
(* train_util.get_hidden_states_sdxl *)
Variable get_hidden_states_sdxl :
  option Z -> tensor -> tensor -> Tok -> Tok -> Enc -> Enc -> option dtype ->
  res (tensor * tensor * tensor).

Definition get_text_cond (args : Args) (acc : accelerator)
    (batch : gmap string pyval) (tokenizers : Tok * Tok)
    (text_encoders : Enc * Enc) (weight_dtype : dtype)
    : run (tensor * tensor * tensor) :=
  if absent_or_none batch "text_encoder_outputs1_list" then
    input_ids1 ← lift (py_getitem batch "input_ids");
    input_ids2 ← lift (py_getitem batch "input_ids2");
    (* with torch.enable_grad(): *)
    input_ids1 ← lift (as_tensor input_ids1);
    input_ids2 ← lift (as_tensor input_ids2);
    call EvGetHiddenStates
      (get_hidden_states_sdxl (max_token_length args)
         (to_device (acc_device acc) input_ids1)
         (to_device (acc_device acc) input_ids2)
         tokenizers.1 tokenizers.2 text_encoders.1 text_encoders.2
         (if negb (full_fp16 args) then None else Some weight_dtype))
  else
    let fetch k :=
      v ← lift (py_getitem batch k);
      t ← lift (as_tensor v);
      mret (to_dtype weight_dtype (to_device (acc_device acc) t)) in
    encoder_hidden_states1 ← fetch "text_encoder_outputs1_list";
    encoder_hidden_states2 ← fetch "text_encoder_outputs2_list";
    pool2 ← fetch "text_encoder_pool2_list";
    mret (encoder_hidden_states1, encoder_hidden_states2, pool2).
End TextCond.

(** ** call_unet (lines 206-221) *)

Section CallUnet.
(* sdxl_train_util.get_size_embeddings *)
Variable get_size_embeddings : pyval -> pyval -> pyval -> device -> res tensor.
(* the denoiser's forward pass *)
Variable unet_forward : tensor -> tensor -> tensor -> tensor -> res tensor.

Definition call_unet (acc : accelerator) (noisy_latents timesteps : tensor)
    (text_conds : tensor * tensor * tensor) (batch : gmap string pyval)
    (weight_dtype : dtype) : run tensor :=
  let noisy_latents := to_dtype weight_dtype noisy_latents in
  orig_size ← lift (py_getitem batch "original_sizes_hw");
  crop_size ← lift (py_getitem batch "crop_top_lefts");
  target_size ← lift (py_getitem batch "target_sizes_hw");
  embs ← call EvGetSizeEmbeddings
           (get_size_embeddings orig_size crop_size target_size (acc_device acc));
  let embs := to_dtype weight_dtype embs in
  let '(encoder_hidden_states1, encoder_hidden_states2, pool2) := text_conds in
  vector_embedding ← lift (torch_cat 1 pool2 embs);
  let vector_embedding := to_dtype weight_dtype vector_embedding in
  text_embedding ← lift (torch_cat 2 encoder_hidden_states1 encoder_hidden_states2);
  let text_embedding := to_dtype weight_dtype text_embedding in
  noise_pred ← call EvUnetForward
                 (unet_forward noisy_latents timesteps text_embedding vector_embedding);
  mret noise_pred.
End CallUnet.

End Tensors.

(** ** Tokenizers (the transformers library, outside this file) *)

Class Tokenizer (T : Type) := {
  (* registers the strings, returns how many were newly added *)
  add_tokens : T -> list string -> T * Z;
  convert_tokens_to_ids : T -> list string -> list Z;
  (* len(tokenizer) *)
  tok_len : T -> Z;
}.

(** A model of the tokenizer the trainer is run with, as far as the loader
    uses it: a vocabulary in id order. [add_tokens] adds a string, at the
    end, when it is not in the vocabulary yet, and returns the number of
    strings added; an unknown string resolves to the id of the unknown
    token. *)
Record hf_tokenizer := HfTokenizer {
  vocab : list string;
  unk_token_id : Z;
}.

Definition hf_add_token (st : list string * Z) (s : string) : list string * Z :=
  if decide (s ∈ st.1) then st else (st.1 ++ [s], (st.2 + 1)%Z).

Definition hf_add_tokens (t : hf_tokenizer) (new_tokens : list string)
    : hf_tokenizer * Z :=
  let '(v, n) := foldl hf_add_token (vocab t, 0%Z) new_tokens in
  (HfTokenizer v (unk_token_id t), n).

Definition hf_token_to_id (t : hf_tokenizer) (s : string) : Z :=
  match list_find (λ x, x = s) (vocab t) with
  | Some (i, _) => Z.of_nat i
  | None => unk_token_id t
  end.

#[global] Instance hf_tokenizer_ops : Tokenizer hf_tokenizer := {
  add_tokens := hf_add_tokens;
  convert_tokens_to_ids t ss := hf_token_to_id t <$> ss;
  tok_len t := Z.of_nat (length (vocab t));
}.

(** ** load_textual_inversion (lines 58-109) *)

Section TextualInversion.
(* a row of an embedding tensor, of the encoder's hidden size *)
Context {V : Type}.
Context {T : Type} {tk : Tokenizer T}.

(** The mapping read from an embedding file: its tensors, each a list of
    rows, and the mapping under ["string_to_param"] when there is one. *)
Record file_data := FileData {
  fd_tensors : gmap string (list V);
  fd_string_to_param : option (gmap string (list V));
}.

Variable is_safetensors : string -> bool.            (* model_util.is_safetensors *)
Variable load_file : string -> res file_data.        (* safetensors.torch.load_file *)
Variable torch_load : string -> res file_data.       (* torch.load *)
(* os.path.splitext(os.path.basename(path))[0] *)
Variable path_stem : string -> string.
(* the value resize_token_embeddings gives row [i] of encoder [e] when it
   creates that row *)
Variable fresh_row : nat -> nat -> V.

(** A text encoder as the loader sees it: the module and the rows of its
    input-embedding weight. *)
Record text_encoder := TextEncoder {
  te_module : module;
  input_embeddings : list V;
}.

Definition tensor_getitem (data : gmap string (list V)) (k : string) : res (list V) :=
  match data !! k with
  | Some t => Ok t
  | None => Raise (KeyError k)
  end.

(** [a or b] on strings: [a] unless it is None or empty *)
Definition str_or (a : option string) (b : string) : string :=
  match a with
  | Some s => if decide (s = EmptyString) then b else s
  | None => b
  end.

(** line 74 *)
Definition make_token_strings (token_string : string) (num_vectors_per_token : nat)
    : list string :=
  token_string ::
    ((λ i, token_string +:+ pretty (i + 1)%nat) <$> seq 0 (num_vectors_per_token - 1)).

Definition py_min (l : list Z) : res Z :=
  match l with
  | [] => Raise ValueError
  | x :: l' => Ok (foldl Z.min x l')
  end.

(** [l[0]] and [l[-1]] *)
Definition py_first (l : list Z) : res Z :=
  match l with
  | [] => Raise IndexError
  | x :: _ => Ok x
  end.
Definition py_last (l : list Z) : res Z :=
  match last l with
  | None => Raise IndexError
  | Some x => Ok x
  end.

(** lines 87 and 90: [min(ids) == ids[0] and ids[-1] == ids[0] + len(ids) - 1] *)
Definition ids_ordered (ids : list Z) : res bool :=
  m ← py_min ids;
  x0 ← py_first ids;
  if bool_decide (m = x0) then
    xl ← py_last ids;
    x0 ← py_first ids;
    mret (bool_decide (xl = x0 + Z.of_nat (length ids) - 1)%Z)
  else mret false.

(** lines 92 and 93: [len(tokenizer) - 1 == ids[-1]] *)
Definition ids_end (tokenizer : T) (ids : list Z) : res bool :=
  xl ← py_last ids;
  mret (bool_decide (tok_len tokenizer - 1 = xl)%Z).

(** The state of the loop over the files: both tokenizers and the
    [(token_ids, embeds)] pairs collected for each encoder. *)
Record ti_state := TiState {
  tokenizers : T * T;
  token_ids_embeds1 : list (list Z * list V);
  token_ids_embeds2 : list (list Z * list V);
}.

(** Lines 63-71 of the loop body: the two tensors read from a file. *)
Definition file_embeds (embeds_file : string) : res (list V * list V) :=
  data ← (if is_safetensors embeds_file then load_file embeds_file
          else torch_load embeds_file);
  let data := match fd_string_to_param data with
              | Some d => d
              | None => fd_tensors data
              end in
  embeds1 ← tensor_getitem data "clip_l";  (* text encoder 1 *)
  embeds2 ← tensor_getitem data "clip_g";  (* text encoder 2 *)
  mret (embeds1, embeds2).

(** The body of the loop (lines 63-99) for one file. *)
Definition register_file (args : Args) (st : ti_state) (embeds_file : string)
    : res ti_state :=
  '(embeds1, embeds2) ← file_embeds embeds_file;
  let num_vectors_per_token := length embeds1 in
  let token_string := str_or (textual_inversion_name args) (path_stem embeds_file) in
  let token_strings := make_token_strings token_string num_vectors_per_token in
  let '(tok1, num_added_tokens1) := add_tokens (tokenizers st).1 token_strings in
  let '(tok2, num_added_tokens2) := add_tokens (tokenizers st).2 token_strings in
  py_assert (bool_decide (num_added_tokens1 = Z.of_nat num_vectors_per_token)
             && bool_decide (num_added_tokens2 = Z.of_nat num_vectors_per_token))
    AssertNumAdded;;
  let token_ids1 := convert_tokens_to_ids tok1 token_strings in
  let token_ids2 := convert_tokens_to_ids tok2 token_strings in
  (* line 84 prints the ids *)
  o1 ← ids_ordered token_ids1; py_assert o1 AssertIds1Ordered;;
  o2 ← ids_ordered token_ids2; py_assert o2 AssertIds2Ordered;;
  e1 ← ids_end tok1 token_ids1; py_assert e1 AssertIds1End;;
  e2 ← ids_end tok2 token_ids2; py_assert e2 AssertIds2End;;
  mret (TiState (tok1, tok2)
          (token_ids_embeds1 st ++ [(token_ids1, embeds1)])
          (token_ids_embeds2 st ++ [(token_ids2, embeds2)])).

(** [for embeds_file in args.textual_inversion_embeddings] *)
Fixpoint register_files (args : Args) (st : ti_state) (files : list string)
    : res ti_state :=
  match files with
  | [] => Ok st
  | f :: files' => st' ← register_file args st f; register_files args st' files'
  end.

(** [resize_token_embeddings(n)]: the first rows are kept, rows are created
    up to [n] *)
Definition resize_token_embeddings (e : nat) (n : Z) (enc : text_encoder)
    : res text_encoder :=
  if decide (n < 0)%Z then Raise RuntimeError
  else
    let old := input_embeddings enc in
    let n := Z.to_nat n in
    Ok (TextEncoder (te_module enc)
          (take n old ++ (fresh_row e <$> seq (length old) (n - length old)))).

(** [weight[token_id] = embed]; a negative index counts from the end *)
Definition setitem (weight : list V) (token_id : Z) (embed : V) : res (list V) :=
  let n := Z.of_nat (length weight) in
  if decide (0 ≤ token_id < n)%Z then Ok (<[Z.to_nat token_id := embed]> weight)
  else if decide (- n ≤ token_id < 0)%Z then
    Ok (<[Z.to_nat (n + token_id) := embed]> weight)
  else Raise IndexError.

(** [for token_id, embed in zip(token_ids, embeds)] *)
Fixpoint assign_rows (weight : list V) (token_ids : list Z) (embeds : list V)
    : res (list V) :=
  match token_ids, embeds with
  | token_id :: ids', embed :: embeds' =>
      weight' ← setitem weight token_id embed; assign_rows weight' ids' embeds'
  | _, _ => Ok weight
  end.

(** [for token_ids, embeds in token_ids_embeds] *)
Fixpoint assign_all (weight : list V) (l : list (list Z * list V)) : res (list V) :=
  match l with
  | [] => Ok weight
  | (token_ids, embeds) :: l' =>
      weight' ← assign_rows weight token_ids embeds; assign_all weight' l'
  end.

Definition load_textual_inversion (args : Args) (toks : T * T)
    (encs : text_encoder * text_encoder)
    : res ((T * T) * (text_encoder * text_encoder)) :=
  match textual_inversion_embeddings args with
  | [] => Ok (toks, encs)
  | files =>
      st ← register_files args (TiState toks [] []) files;
      enc1 ← resize_token_embeddings 0 (tok_len (tokenizers st).1) encs.1;
      enc2 ← resize_token_embeddings 1 (tok_len (tokenizers st).2) encs.2;
      token_embeds1 ← assign_all (input_embeddings enc1) (token_ids_embeds1 st);
      token_embeds2 ← assign_all (input_embeddings enc2) (token_ids_embeds2 st);
      mret (tokenizers st,
            (TextEncoder (te_module enc1) token_embeds1,
             TextEncoder (te_module enc2) token_embeds2))
  end.

(** The strings registered for a file whose first tensor is [embeds1]
    (lines 72-74). *)
Definition file_token_strings (args : Args) (embeds_file : string)
    (embeds1 : list V) : list string :=
  make_token_strings (str_or (textual_inversion_name args) (path_stem embeds_file))
    (length embeds1).
End TextualInversion.

(** ** Fixtures used to evaluate the definitions on concrete inputs *)

(** A dataset group whose caching pass moves both encoders to the compute
    device in the training precision. *)
Definition moving_dataset : DatasetGroup unit unit := {|
  is_text_encoder_output_cacheable _ := true;
  verify_bucket_reso_steps _ _ := Ok tt;
  ds_cache_text_encoder_outputs _ _ tes d w _ _ :=
    Ok (tt, (module_to_dtype d w tes.1, module_to_dtype d w tes.2));
|}.

(** A dataset group with caption dropout: its output is not cacheable. *)
Definition dropout_dataset : DatasetGroup unit unit := {|
  is_text_encoder_output_cacheable _ := false;
  verify_bucket_reso_steps _ _ := Ok tt;
  ds_cache_text_encoder_outputs _ _ tes _ _ _ _ := Ok (tt, tes);
|}.

Definition args_cached (low : bool) : Args := {|
  cache_text_encoder_outputs := true;
  cache_text_encoder_outputs_to_disk := false;
  network_train_unet_only := true;
  lowram := low;
  full_fp16 := false;
  max_token_length := None;
  textual_inversion_embeddings := [];
  textual_inversion_name := None;
|}.

Definition gpu_accelerator : accelerator := Accelerator (Accel 0) true.

(** With [lowram] the models are loaded onto the compute device. *)
Definition models_on_gpu : models (D := unit) :=
  Models (Module_ (Accel 0) BFloat16) (Module_ (Accel 0) BFloat16)
         (Module_ (Accel 0) BFloat16, Module_ (Accel 0) BFloat16) tt.

(** Without it the text encoders and the codec wait on the CPU. *)
Definition models_mixed : models (D := unit) :=
  Models (Module_ (Accel 0) Float16) (Module_ (Accel 1) Float32)
         (Module_ Cpu Float16, Module_ Cpu Float16) tt.

(** The property of the priming pass in the specification's words: both
    encoders in float32, each where it was before priming. *)
Definition encoders_float32_in_place {D} (before after : models (D := D)) : Prop :=
  m_dtype (text_encoders after).1 = Float32
  ∧ m_dtype (text_encoders after).2 = Float32
  ∧ m_device (text_encoders after).1 = m_device (text_encoders before).1
  ∧ m_device (text_encoders after).2 = m_device (text_encoders before).2.

(** Start-up checks of the base trainer and of the SDXL arguments that
    pass. *)
Definition super_passes (args : Args) (ds : unit) : res unit := Ok tt.
Definition verify_passes (args : Args) : res unit := Ok tt.

(** Tensors over integers, with a conversion that keeps the value. *)
Definition keep : dtype -> dtype -> Z -> Z := λ _ _ x, x.

Definition ids_tensor : tensor := Tensor Cpu Int64 [1; 2]%nat [49406; 49407]%Z.
Definition hidden1 : tensor := Tensor Cpu Float32 [1; 2; 2]%nat [1; 2; 3; 4]%Z.
Definition hidden2 : tensor := Tensor Cpu Float32 [1; 2; 3]%nat [5; 6; 7; 8; 9; 10]%Z.
Definition pooled : tensor := Tensor Cpu Float32 [1; 3]%nat [11; 12; 13]%Z.

(** A batch of a primed dataset and a batch of a live one. *)
Definition cached_batch : gmap string (pyval (A := Z)) :=
  {[ "input_ids" := PyNone; "input_ids2" := PyNone;
     "text_encoder_outputs1_list" := PyTensor hidden1;
     "text_encoder_outputs2_list" := PyTensor hidden2;
     "text_encoder_pool2_list" := PyTensor pooled ]}.

Definition live_batch : gmap string (pyval (A := Z)) :=
  {[ "input_ids" := PyTensor ids_tensor; "input_ids2" := PyTensor ids_tensor;
     "text_encoder_outputs1_list" := PyNone;
     "text_encoder_outputs2_list" := PyNone;
     "text_encoder_pool2_list" := PyNone ]}.

(** Text encoders that fail when they are run. *)
Definition failing_encoders : option Z -> tensor (A := Z) -> tensor (A := Z) ->
    unit -> unit -> unit -> unit -> option dtype ->
    res (tensor (A := Z) * tensor (A := Z) * tensor (A := Z)) :=
  λ _ _ _ _ _ _ _ _, Raise (ExternalError "text encoder").

(** The invariant of a batch in the data model: the precomputed outputs are
    all there as tensors, or none is; the two token-id fields are there. *)
Definition batch_invariant {A} (batch : gmap string (pyval (A := A))) : Prop :=
  ((∃ t1 t2 t3,
      batch !! "text_encoder_outputs1_list" = Some (PyTensor t1)
      ∧ batch !! "text_encoder_outputs2_list" = Some (PyTensor t2)
      ∧ batch !! "text_encoder_pool2_list" = Some (PyTensor t3))
   ∨ (absent_or_none batch "text_encoder_outputs1_list" = true
      ∧ absent_or_none batch "text_encoder_outputs2_list" = true
      ∧ absent_or_none batch "text_encoder_pool2_list" = true))
  ∧ is_Some (batch !! "input_ids") ∧ is_Some (batch !! "input_ids2").

Definition cpu_accelerator : accelerator := Accelerator Cpu true.

Definition size_pair : tensor := Tensor Cpu Int64 [1; 2]%nat [512; 512]%Z.
Definition crop_pair : tensor := Tensor Cpu Int64 [1; 2]%nat [0; 0]%Z.

Definition geometry_batch : gmap string (pyval (A := Z)) :=
  {[ "original_sizes_hw" := PyTensor size_pair;
     "crop_top_lefts" := PyTensor crop_pair;
     "target_sizes_hw" := PyTensor size_pair ]}.

(** A size embedding of two features per sample. *)
Definition two_feature_embedding :
    pyval (A := Z) -> pyval (A := Z) -> pyval (A := Z) -> device ->
    res (tensor (A := Z)) :=
  λ _ _ _ d, Ok (Tensor d Float32 [1; 2]%nat [21; 22]%Z).

(** A denoiser that answers with the text embedding it was given. *)
Definition echo_text :
    tensor (A := Z) -> tensor (A := Z) -> tensor (A := Z) -> tensor (A := Z) ->
    res (tensor (A := Z)) :=
  λ _ _ text _, Ok text.

Definition latents : tensor := Tensor Cpu Float32 [1; 1; 2; 2]%nat [0; 1; 2; 3]%Z.
Definition timesteps : tensor := Tensor Cpu Int64 [1]%nat [999]%Z.

(** ** Vocabulary of the statements about the loader *)

(** The ids [L, L+1, ..., L+k-1]. *)
Definition iota (L k : nat) : list Z := (λ i, Z.of_nat (L + i)) <$> seq 0 k.

(** The [(token_ids, embeds)] pairs of files that register [k] strings each,
    one after the other from id [L] on. *)
Fixpoint segs {V} (L : nat) (l : list (nat * list V)) : list (list Z * list V) :=
  match l with
  | [] => []
  | (k, e) :: l' => (iota L k, e) :: segs (L + k) l'
  end.

(** Rows [tail] after each file has written its tensor [e] over its [k]
    rows: the first [min k (length e)] rows of the file's block come from
    [e], the others stay as they were. *)
Fixpoint fill {V} (tail : list V) (l : list (nat * list V)) : list V :=
  match l with
  | [] => tail
  | (k, e) :: l' =>
      take k e ++ take (k - length e) (drop (length e) tail) ++ fill (drop k tail) l'
  end.

(** All of [ss] are distinct and none is in the vocabulary [v]. *)
Definition fresh_all (v ss : list string) : Prop :=
  NoDup ss ∧ Forall (λ s, s ∉ v) ss.

(** What lines 86-93 require of the ids of one tokenizer of length
    [len]. *)
Definition ids_pass (len : Z) (ids : list Z) : Prop :=
  ∃ x0 xl, head ids = Some x0 ∧ last ids = Some xl
           ∧ Forall (λ x, x0 ≤ x)%Z ids
           ∧ xl = (x0 + Z.of_nat (length ids) - 1)%Z
           ∧ (len - 1)%Z = xl.

(** The requirement in the specification's words: the ids are contiguous
    and ascending, start right after the previous maximum id and end at the
    new vocabulary size minus one. *)
Definition spec_ids_ok (prev_max new_size : Z) (ids : list Z) : Prop :=
  ids = (λ i, prev_max + 1 + Z.of_nat i)%Z <$> seq 0 (length ids)
  ∧ last ids = Some (new_size - 1)%Z.

(** ** Fixtures for the loader *)

(** A tokenizer that hands out the new ids of one call in another order:
    first, then the middle ones descending, then the last. *)
Record perm_tokenizer := PermTokenizer {
  pt_table : list (string * Z);
}.

Definition perm_ids (start : nat) (k : nat) : list Z :=
  match k with
  | O => []
  | S O => [Z.of_nat start]
  | S (S m) =>
      Z.of_nat start :: reverse (iota (S start) m) ++ [Z.of_nat (S start + m)]
  end.

Definition pt_add_tokens (t : perm_tokenizer) (ss : list string)
    : perm_tokenizer * Z :=
  let new := filter (λ s, s ∉ (pt_table t).*1) (remove_dups ss) in
  (PermTokenizer (pt_table t ++ zip new (perm_ids (length (pt_table t)) (length new))),
   Z.of_nat (length new)).

Definition pt_token_to_id (t : perm_tokenizer) (s : string) : Z :=
  match list_find (λ e, e.1 = s) (pt_table t) with
  | Some (_, e) => e.2
  | None => 0%Z
  end.

Definition perm_tokenizer_ops : Tokenizer perm_tokenizer := {|
  add_tokens := pt_add_tokens;
  convert_tokens_to_ids t ss := pt_token_to_id t <$> ss;
  tok_len t := Z.of_nat (length (pt_table t));
|}.

Definition perm_start : perm_tokenizer := PermTokenizer [("a", 0%Z); ("b", 1%Z)].

(** Embedding files on disk: "foo" with four vectors for each encoder,
    "short" with two vectors for encoder 1 and one for encoder 2, "long"
    with one vector for encoder 1 and two for encoder 2, "empty" with no
    vector for encoder 1 and one for encoder 2. Rows are numbers. *)
Definition disk (path : string) : res (file_data (V := nat)) :=
  if decide (path = "foo") then
    Ok (FileData {[ "clip_l" := [10; 11; 12; 13]; "clip_g" := [20; 21; 22; 23] ]} None)
  else if decide (path = "short") then
    Ok (FileData {[ "clip_l" := [30; 31]; "clip_g" := [40] ]} None)
  else if decide (path = "long") then
    Ok (FileData ∅ (Some {[ "clip_l" := [50]; "clip_g" := [60; 61] ]}))
  else if decide (path = "empty") then
    Ok (FileData {[ "clip_l" := []; "clip_g" := [70] ]} None)
  else Raise (ExternalError "no such file").

Definition args_ti (files : list string) : Args := {|
  cache_text_encoder_outputs := false;
  cache_text_encoder_outputs_to_disk := false;
  network_train_unet_only := true;
  lowram := false;
  full_fp16 := false;
  max_token_length := None;
  textual_inversion_embeddings := files;
  textual_inversion_name := None;
|}.

Definition clip_tokenizer : hf_tokenizer := HfTokenizer ["<unk>"; "a"; "b"] 0.

Definition clip_encoder : text_encoder (V := nat) :=
  TextEncoder (Module_ Cpu Float32) [0; 1; 2].

(** Fresh row [i] of encoder [e] holds the number [100 * (e + 1) + i]. *)
Definition numbered_row (e i : nat) : nat := 100 * (e + 1) + i.

Definition always_safetensors : string -> bool := λ _, true.
(* the files of [disk] are named by their stem *)
Definition stem_is_path : string -> string := λ s, s.

(** The same options with [--textual_inversion_name]. *)
Definition args_ti_named (name : string) (files : list string) : Args := {|
  cache_text_encoder_outputs := false;
  cache_text_encoder_outputs_to_disk := false;
  network_train_unet_only := true;
  lowram := false;
  full_fp16 := false;
  max_token_length := None;
  textual_inversion_embeddings := files;
  textual_inversion_name := Some name;
|}.

(** The strings of a list of files whose tensors are [embs], in order. *)
Definition all_token_strings {V} (path_stem : string -> string) (args : Args)
    (files : list string) (embs : list (list V * list V)) : list string :=
  concat (zip_with (λ f e, file_token_strings path_stem args f e.1) files embs).

(** For each file the size of its block of ids (the number of rows of its
    first tensor) and the tensor written for encoder 1, for encoder 2. *)
Definition blocks1 {V} (embs : list (list V * list V)) : list (nat * list V) :=
  (λ e, (length e.1, e.1)) <$> embs.
Definition blocks2 {V} (embs : list (list V * list V)) : list (nat * list V) :=
  (λ e, (length e.1, e.2)) <$> embs.

(** The number of ids taken by the files before position [j]. *)
Definition rows_before {V} (j : nat) (embs : list (list V * list V)) : nat :=
  sum_list ((blocks1 (take j embs)).*1).

(** ** is_text_encoder_outputs_cached (lines 111-112) *)

Definition is_text_encoder_outputs_cached (args : Args) : bool :=
  cache_text_encoder_outputs args.

(** A dataset group whose caching pass fails on a sample. *)
Definition failing_dataset : DatasetGroup unit unit := {|
  is_text_encoder_output_cacheable _ := true;
  verify_bucket_reso_steps _ _ := Ok tt;
  ds_cache_text_encoder_outputs _ _ _ _ _ _ _ := Raise (ExternalError "encode");
|}.

Definition args_live : Args := {|
  cache_text_encoder_outputs := false;
  cache_text_encoder_outputs_to_disk := false;
  network_train_unet_only := false;
  lowram := false;
  full_fp16 := true;
  max_token_length := Some 225%Z;
  textual_inversion_embeddings := [];
  textual_inversion_name := None;
|}.

(** A batch that breaks the invariant: only the first precomputed field. *)
Definition partial_batch : gmap string (pyval (A := Z)) :=
  {[ "input_ids" := PyTensor ids_tensor; "input_ids2" := PyTensor ids_tensor;
     "text_encoder_outputs1_list" := PyTensor hidden1 ]}.

(** A batch with the geometry of [geometry_batch] and the precomputed
    outputs of [cached_batch]. *)
Definition full_batch : gmap string (pyval (A := Z)) :=
  geometry_batch ∪ cached_batch.

(** A batch without the crop offsets. *)
Definition no_crop_batch : gmap string (pyval (A := Z)) :=
  {[ "original_sizes_hw" := PyTensor size_pair;
     "target_sizes_hw" := PyTensor size_pair ]}.

(** The events of a trace that run a text encoder. *)
Definition encoder_runs (tr : list event) : nat :=
  length (filter (λ ev, encoder_event ev = true) tr).

(** A file whose mapping under "string_to_param" holds the tensor for
    encoder 1 only, beside both tensors at the top. *)
Definition nested_without_clip_g (path : string) : res (file_data (V := nat)) :=
  Ok (FileData {[ "clip_l" := [1]; "clip_g" := [2] ]} (Some {[ "clip_l" := [3] ]})).

(** Tensors outside the shapes the trainer produces: one of shape (0,)
    and a scalar. *)
Definition empty_vector : tensor (A := Z) := Tensor Cpu Float32 [0%nat] [].
Definition scalar : tensor (A := Z) := Tensor Cpu Float32 [] [7%Z].

(** A denoiser that answers with the vector embedding it was given. *)
Definition echo_vector :
    tensor (A := Z) -> tensor (A := Z) -> tensor (A := Z) -> tensor (A := Z) ->
    res (tensor (A := Z)) :=
  λ _ _ _ vector, Ok vector.


(** * Properties *)

(** ** The priming pass *)

Section PrimingFacts.
Context {D Tok : Type} {dsg : DatasetGroup D Tok}.
Variable cuda_is_available : bool.

Lemma module_to_back (m : module) (d : device) :
  module_to (m_device m) (module_to d m) = m.
Proof. by destruct m. Qed.

(** The whole pass in CACHED mode, when the dataset's caching call returns:
    the final state and the trace. *)
Lemma priming_cached_run (args : Args) (acc : accelerator) (st : models)
    (toks : Tok * Tok) (w : dtype) (ds' : D) (tes' : module * module) :
  cache_text_encoder_outputs args = true ->
  ds_cache_text_encoder_outputs (dataset st) toks (text_encoders st)
    (acc_device acc) w (cache_text_encoder_outputs_to_disk args)
    (is_main_process acc) = Ok (ds', tes') ->
  let ec := if cuda_is_available then [EvEmptyCache] else [] in
  let middle :=
    [EvCacheTextEncoderOutputs (acc_device acc) w
       (cache_text_encoder_outputs_to_disk args) (is_main_process acc);
     EvTo TextEncoder1 Cpu (Some Float32); EvTo TextEncoder2 Cpu (Some Float32)]
    ++ ec in
  cache_text_encoder_outputs_if_needed cuda_is_available args acc st toks w
  = (if lowram args then middle
     else [EvPrint "move vae and unet to cpu to save memory";
           EvTo Vae Cpu None; EvTo Unet Cpu None] ++ ec ++ middle
          ++ [EvPrint "move vae and unet back to original device";
              EvTo Vae (m_device (vae st)) None; EvTo Unet (m_device (unet st)) None],
     Ok (Models (unet st) (vae st)
           (Module_ Cpu Float32, Module_ Cpu Float32) ds')).
Proof.
  intros Hc Hds. destruct st as [u v tes ds]. simpl in *.
  unfold cache_text_encoder_outputs_if_needed, empty_cache. rewrite Hc.
  destruct tes' as [te1 te2].
  destruct (lowram args); simpl; rewrite Hds; simpl;
    destruct cuda_is_available; simpl; by rewrite ?module_to_back.
Qed.

(** C1 (as amended): in CACHED mode, once the caching call returns, the
    priming pass completes and leaves both text encoders in float32 on the
    CPU, whatever the training precision and wherever they were before. *)
Theorem priming_leaves_encoders_float32_on_cpu (args : Args) (acc : accelerator)
    (st : models) (toks : Tok * Tok) (w : dtype) (ds' : D) (tes' : module * module) :
  cache_text_encoder_outputs args = true ->
  ds_cache_text_encoder_outputs (dataset st) toks (text_encoders st)
    (acc_device acc) w (cache_text_encoder_outputs_to_disk args)
    (is_main_process acc) = Ok (ds', tes') ->
  ∃ st', snd (cache_text_encoder_outputs_if_needed cuda_is_available args acc st toks w)
         = Ok st'
         ∧ text_encoders st' = (Module_ Cpu Float32, Module_ Cpu Float32).
Proof.
  intros Hc Hds. rewrite (priming_cached_run _ _ _ _ _ _ _ Hc Hds). simpl. eauto.
Qed.

(** C7: in CACHED mode, when the codec and the denoiser are relocated (no
    [lowram]) both go to the CPU before the caching call and are put back
    where they were after it; when the relocation is skipped nothing moves
    them; in both cases the text encoders end in float32. *)
Theorem priming_restores_vae_and_unet (args : Args) (acc : accelerator)
    (st : models) (toks : Tok * Tok) (w : dtype) (ds' : D) (tes' : module * module) :
  cache_text_encoder_outputs args = true ->
  ds_cache_text_encoder_outputs (dataset st) toks (text_encoders st)
    (acc_device acc) w (cache_text_encoder_outputs_to_disk args)
    (is_main_process acc) = Ok (ds', tes') ->
  ∃ tr st',
    cache_text_encoder_outputs_if_needed cuda_is_available args acc st toks w
    = (tr, Ok st')
    ∧ vae st' = vae st ∧ unet st' = unet st
    ∧ m_dtype (text_encoders st').1 = Float32
    ∧ m_dtype (text_encoders st').2 = Float32
    ∧ let cache_ev := EvCacheTextEncoderOutputs (acc_device acc) w
                        (cache_text_encoder_outputs_to_disk args) (is_main_process acc) in
      if lowram args then
        Forall (λ ev, ∀ d t, ev ≠ EvTo Vae d t ∧ ev ≠ EvTo Unet d t) tr
      else
        ∃ tr1 tr2 tr3,
          tr = tr1 ++ [EvTo Vae Cpu None; EvTo Unet Cpu None] ++ tr2
               ++ [cache_ev] ++ tr3
               ++ [EvTo Vae (m_device (vae st)) None; EvTo Unet (m_device (unet st)) None].
Proof.
  intros Hc Hds. rewrite (priming_cached_run _ _ _ _ _ _ _ Hc Hds).
  eexists _, _. split; [reflexivity|]. simpl. repeat split.
  destruct (lowram args).
  - destruct cuda_is_available; repeat constructor; discriminate.
  - exists [EvPrint "move vae and unet to cpu to save memory"],
      (if cuda_is_available then [EvEmptyCache] else []),
      ([EvTo TextEncoder1 Cpu (Some Float32); EvTo TextEncoder2 Cpu (Some Float32)]
       ++ (if cuda_is_available then [EvEmptyCache] else [])
       ++ [EvPrint "move vae and unet back to original device"]).
    by destruct cuda_is_available.
Qed.
End PrimingFacts.

(** C1, witness: a run in bfloat16 with the encoders first on the CPU. *)
Lemma priming_leaves_encoders_float32_on_cpu_witness :
  ∃ st', snd (cache_text_encoder_outputs_if_needed (dsg := moving_dataset) true
                (args_cached false) gpu_accelerator models_mixed (tt, tt) BFloat16)
         = Ok st'
         ∧ text_encoders st' = (Module_ Cpu Float32, Module_ Cpu Float32).
Proof.
  apply (priming_leaves_encoders_float32_on_cpu (dsg := moving_dataset) true
           (args_cached false) gpu_accelerator models_mixed (tt, tt) BFloat16 tt
           (Module_ (Accel 0) BFloat16, Module_ (Accel 0) BFloat16));
    reflexivity.
Defined.

(** C1, as stated, fails: with [lowram] the encoders are on the compute
    device before priming and on the CPU after it. *)
Lemma priming_encoders_not_in_place :
  ∃ st', snd (cache_text_encoder_outputs_if_needed (dsg := moving_dataset) true
                (args_cached true) gpu_accelerator models_on_gpu (tt, tt) BFloat16)
         = Ok st'
         ∧ ¬ encoders_float32_in_place models_on_gpu st'.
Proof.
  eexists. split; [reflexivity|]. intros (_ & _ & Hd & _). discriminate Hd.
Qed.

(** C7, witness: the denoiser on device 0 and the codec on device 1. *)
Lemma priming_restores_vae_and_unet_witness :
  ∃ tr st',
    cache_text_encoder_outputs_if_needed (dsg := moving_dataset) true
      (args_cached false) gpu_accelerator models_mixed (tt, tt) Float16
    = (tr, Ok st')
    ∧ vae st' = Module_ (Accel 1) Float32 ∧ unet st' = Module_ (Accel 0) Float16.
Proof.
  destruct (priming_restores_vae_and_unet (dsg := moving_dataset) true
              (args_cached false) gpu_accelerator models_mixed (tt, tt) Float16 tt
              (Module_ (Accel 0) Float16, Module_ (Accel 0) Float16)
              eq_refl eq_refl) as (tr & st' & Hrun & Hv & Hu & _).
  exists tr, st'. split; [exact Hrun|]. split; [exact Hv | exact Hu].
Defined.

(** ** The start-up checks *)

Ltac not_in_trace :=
  let Hin := fresh "Hin" in
  intros Hin;
  repeat (apply elem_of_cons in Hin as [Hin|Hin]; [discriminate Hin|]);
  by apply elem_of_nil in Hin.

Section AssertExtraArgsFacts.
Context {D Tok : Type} {dsg : DatasetGroup D Tok}.
Variable super_assert_extra_args : Args -> D -> res unit.
Variable verify_sdxl_training_args : Args -> res unit.

(** C3: when caching is selected and the dataset's output is not cacheable,
    or the network also trains the text encoders, [assert_extra_args]
    raises; no encoder is run and no caching is done on the way; and once
    the checks of the base trainer and of the SDXL arguments have passed,
    the exception is one of the two configuration assertions. *)
Theorem cached_mode_preconditions_fail_fast (args : Args) (ds : D) :
  cache_text_encoder_outputs args = true ->
  is_text_encoder_output_cacheable ds = false ∨ network_train_unet_only args = false ->
  ∃ tr e,
    assert_extra_args super_assert_extra_args verify_sdxl_training_args args ds
    = (tr, Raise e)
    ∧ Forall (λ ev, encoder_event ev = false) tr
    ∧ (EvVerifyBucketResoSteps 32 ∉ tr)
    ∧ (super_assert_extra_args args ds = Ok tt ->
       verify_sdxl_training_args args = Ok tt ->
       taxonomy e = ConfigurationError
       ∧ e = AssertionError (if is_text_encoder_output_cacheable ds
                             then AssertUnetOnly else AssertCacheable)).
Proof.
  intros Hc Hviol. unfold assert_extra_args. rewrite Hc.
  destruct (super_assert_extra_args args ds) as [[]|e1] eqn:Hs; simpl.
  2: { eexists _, _. split; [reflexivity|].
       split; [repeat constructor|]. split; [not_in_trace|]. discriminate. }
  destruct (verify_sdxl_training_args args) as [[]|e2] eqn:Hv; simpl.
  2: { eexists _, _. split; [reflexivity|].
       split; [repeat constructor|]. split; [not_in_trace|]. discriminate. }
  destruct (is_text_encoder_output_cacheable ds) eqn:Hca; simpl.
  - destruct Hviol as [?|Hu]; [discriminate|]. rewrite Hu. simpl.
    eexists _, _. split; [reflexivity|].
    split; [repeat constructor|]. split; [not_in_trace|]. done.
  - eexists _, _. split; [reflexivity|].
    split; [repeat constructor|]. split; [not_in_trace|]. done.
Qed.
End AssertExtraArgsFacts.

(** C3, witness: caching selected over a dataset with caption dropout. *)
Lemma cached_mode_preconditions_fail_fast_witness :
  ∃ tr e,
    assert_extra_args (dsg := dropout_dataset) super_passes verify_passes
      (args_cached false) tt = (tr, Raise e)
    ∧ Forall (λ ev, encoder_event ev = false) tr.
Proof.
  destruct (cached_mode_preconditions_fail_fast (dsg := dropout_dataset)
              super_passes verify_passes (args_cached false) tt eq_refl
              (or_introl eq_refl)) as (tr & e & Hrun & Htr & _).
  exists tr, e. split; [exact Hrun | exact Htr].
Defined.

(** ** Tensors *)

Section TensorFacts.
Context {A : Type}.
Variable cast : dtype -> dtype -> A -> A.

Lemma to_dtype_dtype (w : dtype) (t : tensor (A := A)) : t_dtype (to_dtype cast w t) = w.
Proof. unfold to_dtype. by case_decide. Qed.

Lemma to_dtype_device (w : dtype) (t : tensor (A := A)) :
  t_device (to_dtype cast w t) = t_device t.
Proof. unfold to_dtype. by case_decide. Qed.

Lemma to_dtype_shape (w : dtype) (t : tensor (A := A)) :
  t_shape (to_dtype cast w t) = t_shape t.
Proof. unfold to_dtype. by case_decide. Qed.

Lemma to_dtype_data_length (w : dtype) (t : tensor (A := A)) :
  length (t_data (to_dtype cast w t)) = length (t_data t).
Proof. unfold to_dtype. case_decide; [done|]. simpl. by rewrite length_fmap. Qed.

Lemma interleave_length (n cx cy : nat) (x y : list A) :
  length x = (n * cx)%nat -> length y = (n * cy)%nat ->
  length (interleave n cx cy x y) = (n * (cx + cy))%nat.
Proof.
  revert x y. induction n as [|n IH]; intros x y Hx Hy; [done|].
  simpl. rewrite !length_app, !length_take, IH.
  - lia.
  - rewrite length_drop. lia.
  - rewrite length_drop. lia.
Qed.

(** Row [i] of the concatenation is row [i] of [x] followed by row [i] of
    [y]. *)
Lemma interleave_row (n cx cy : nat) (x y : list A) (i : nat) :
  (i < n)%nat -> length x = (n * cx)%nat -> length y = (n * cy)%nat ->
  take (cx + cy) (drop (i * (cx + cy)) (interleave n cx cy x y))
  = take cx (drop (i * cx) x) ++ take cy (drop (i * cy) y).
Proof.
  revert x y i. induction n as [|n IH]; intros x y i Hi Hx Hy; [lia|].
  assert (Hlx : length (take cx x) = cx) by (rewrite length_take; lia).
  assert (Hly : length (take cy y) = cy) by (rewrite length_take; lia).
  simpl. destruct i as [|i].
  - simpl. rewrite !drop_0, app_assoc, take_app_length'; [done|].
    rewrite length_app. lia.
  - rewrite app_assoc.
    replace (S i * (cx + cy))%nat
      with (length (take cx x ++ take cy y) + i * (cx + cy))%nat
      by (rewrite length_app; lia).
    rewrite drop_app_add, IH.
    + rewrite !drop_drop. do 2 f_equal; f_equal; lia.
    + lia.
    + rewrite length_drop. lia.
    + rewrite length_drop. lia.
Qed.

(** Concatenation of two matrices along the feature axis. *)
Lemma torch_cat_dim1 (x y : tensor (A := A)) (b p e : nat) :
  t_shape x = [b; p] -> t_shape y = [b; e] -> t_device x = t_device y ->
  torch_cat cast 1 x y
  = Ok (Tensor (t_device x) (promote_types (t_dtype x) (t_dtype y)) [b; (p + e)%nat]
          (interleave b p e
             (t_data (to_dtype cast (promote_types (t_dtype x) (t_dtype y)) x))
             (t_data (to_dtype cast (promote_types (t_dtype x) (t_dtype y)) y)))).
Proof.
  intros Hx Hy Hd. unfold torch_cat, cat_skipped, same_except.
  rewrite (bool_decide_eq_true_2 _ Hd), Hx, Hy.
  rewrite !(bool_decide_eq_false_2 (_ = [])) by done.
  rewrite !(bool_decide_eq_false_2 (_ = [0%nat])) by done. simpl.
  rewrite bool_decide_eq_true_2 by done. simpl.
  by rewrite !Nat.mul_1_r.
Qed.

(** Concatenation of two rank-3 tensors along the feature axis. *)
Lemma torch_cat_dim2 (x y : tensor (A := A)) (b l h1 h2 : nat) :
  t_shape x = [b; l; h1] -> t_shape y = [b; l; h2] -> t_device x = t_device y ->
  torch_cat cast 2 x y
  = Ok (Tensor (t_device x) (promote_types (t_dtype x) (t_dtype y))
          [b; l; (h1 + h2)%nat]
          (interleave (b * l) h1 h2
             (t_data (to_dtype cast (promote_types (t_dtype x) (t_dtype y)) x))
             (t_data (to_dtype cast (promote_types (t_dtype x) (t_dtype y)) y)))).
Proof.
  intros Hx Hy Hd. unfold torch_cat, cat_skipped, same_except.
  rewrite (bool_decide_eq_true_2 _ Hd), Hx, Hy.
  rewrite !(bool_decide_eq_false_2 (_ = [])) by done.
  rewrite !(bool_decide_eq_false_2 (_ = [0%nat])) by done. simpl.
  rewrite bool_decide_eq_true_2 by done. simpl.
  by rewrite !Nat.mul_1_r.
Qed.

Lemma torch_cat_dim1_rows (x y v : tensor (A := A)) (b p e : nat) :
  t_shape x = [b; p] -> t_shape y = [b; e] -> tensor_wf x -> tensor_wf y ->
  torch_cat cast 1 x y = Ok v ->
  tensor_wf v
  ∧ ∀ i, (i < b)%nat ->
      row (p + e) i (t_data v)
      = row p i (t_data (to_dtype cast (t_dtype v) x))
        ++ row e i (t_data (to_dtype cast (t_dtype v) y)).
Proof.
  intros Hx Hy Hwx Hwy Hcat. unfold tensor_wf in *. rewrite Hx in Hwx. rewrite Hy in Hwy.
  simpl in Hwx, Hwy. rewrite Nat.mul_1_r in Hwx, Hwy.
  assert (Hd : t_device x = t_device y).
  { destruct (decide (t_device x = t_device y)) as [Hd|Hd]; [done|].
    unfold torch_cat in Hcat. rewrite (bool_decide_eq_false_2 _ Hd) in Hcat.
    discriminate Hcat. }
  rewrite (torch_cat_dim1 x y b p e Hx Hy Hd) in Hcat. injection Hcat as <-.
  simpl. split.
  - rewrite Nat.mul_1_r. apply interleave_length; by rewrite to_dtype_data_length.
  - intros i Hi. unfold row. apply interleave_row; [done| |];
      by rewrite to_dtype_data_length.
Qed.

Lemma torch_cat_dim2_rows (x y v : tensor (A := A)) (b l h1 h2 : nat) :
  t_shape x = [b; l; h1] -> t_shape y = [b; l; h2] -> tensor_wf x -> tensor_wf y ->
  torch_cat cast 2 x y = Ok v ->
  tensor_wf v
  ∧ ∀ i, (i < b * l)%nat ->
      row (h1 + h2) i (t_data v)
      = row h1 i (t_data (to_dtype cast (t_dtype v) x))
        ++ row h2 i (t_data (to_dtype cast (t_dtype v) y)).
Proof.
  intros Hx Hy Hwx Hwy Hcat. unfold tensor_wf in *. rewrite Hx in Hwx. rewrite Hy in Hwy.
  simpl in Hwx, Hwy. rewrite Nat.mul_1_r in Hwx, Hwy.
  assert (Hd : t_device x = t_device y).
  { destruct (decide (t_device x = t_device y)) as [Hd|Hd]; [done|].
    unfold torch_cat in Hcat. rewrite (bool_decide_eq_false_2 _ Hd) in Hcat.
    discriminate Hcat. }
  rewrite (torch_cat_dim2 x y b l h1 h2 Hx Hy Hd) in Hcat. injection Hcat as <-.
  simpl. split.
  - rewrite Nat.mul_1_r, Nat.mul_assoc.
    apply interleave_length; rewrite to_dtype_data_length; lia.
  - intros i Hi. unfold row. apply interleave_row; [done| |];
      rewrite to_dtype_data_length; lia.
Qed.
End TensorFacts.

(** [torch_cat] outside the shapes of the trainer: an operand of shape (0,)
    is left out, also when [dim] is beyond its rank; a [dim] beyond the rank
    of the operands is an IndexError; operands of different ranks and
    scalars are refused. *)
Example torch_cat_outside_the_trainer_shapes :
  torch_cat keep 1 empty_vector pooled = Ok pooled
  ∧ torch_cat keep 2 hidden1 empty_vector = Ok hidden1
  ∧ torch_cat keep 1 empty_vector empty_vector = Ok empty_vector
  ∧ torch_cat keep 1 timesteps timesteps = Raise IndexError
  ∧ torch_cat keep 1 empty_vector timesteps = Raise IndexError
  ∧ torch_cat keep 1 pooled hidden1 = Raise RuntimeError
  ∧ torch_cat keep 1 scalar pooled = Raise RuntimeError.
Proof. repeat split; vm_compute; reflexivity. Qed.

(** ** The conditioning assembler *)

Section AssemblerFacts.
Context {A : Type} {Tok Enc : Type}.
Variable cast : dtype -> dtype -> A -> A.
Variable get_hidden_states_sdxl :
  option Z -> tensor (A := A) -> tensor (A := A) -> Tok -> Tok -> Enc -> Enc ->
  option dtype -> res (tensor (A := A) * tensor (A := A) * tensor (A := A)).

(** The three precomputed fields are tensors: the cached path. *)
Lemma get_text_cond_cached (args : Args) (acc : accelerator)
    (batch : gmap string pyval) (toks : Tok * Tok) (tes : Enc * Enc) (w : dtype)
    (t1 t2 t3 : tensor) :
  batch !! "text_encoder_outputs1_list" = Some (PyTensor t1) ->
  batch !! "text_encoder_outputs2_list" = Some (PyTensor t2) ->
  batch !! "text_encoder_pool2_list" = Some (PyTensor t3) ->
  get_text_cond cast get_hidden_states_sdxl args acc batch toks tes w
  = ([], Ok (to_dtype cast w (to_device (acc_device acc) t1),
             to_dtype cast w (to_device (acc_device acc) t2),
             to_dtype cast w (to_device (acc_device acc) t3))).
Proof.
  intros H1 H2 H3. unfold get_text_cond, absent_or_none, py_getitem.
  rewrite H1, H2, H3. reflexivity.
Qed.

(** The first precomputed field is missing or None: the live path. *)
Lemma get_text_cond_live (args : Args) (acc : accelerator)
    (batch : gmap string pyval) (toks : Tok * Tok) (tes : Enc * Enc) (w : dtype) :
  absent_or_none batch "text_encoder_outputs1_list" = true ->
  get_text_cond cast get_hidden_states_sdxl args acc batch toks tes w
  = match batch !! "input_ids" with
    | None => ([], Raise (KeyError "input_ids"))
    | Some v1 =>
        match batch !! "input_ids2" with
        | None => ([], Raise (KeyError "input_ids2"))
        | Some v2 =>
            match v1, v2 with
            | PyTensor i1, PyTensor i2 =>
                ([EvGetHiddenStates],
                 get_hidden_states_sdxl (max_token_length args)
                   (to_device (acc_device acc) i1) (to_device (acc_device acc) i2)
                   toks.1 toks.2 tes.1 tes.2
                   (if negb (full_fp16 args) then None else Some w))
            | _, _ => ([], Raise AttributeError)
            end
        end
    end.
Proof.
  intros Ha. unfold get_text_cond, py_getitem. rewrite Ha.
  destruct (batch !! "input_ids") as [[|i1]|]; simpl; [| |done];
    destruct (batch !! "input_ids2") as [[|i2]|]; simpl; try done.
  all: by destruct (get_hidden_states_sdxl _ _ _ _ _ _ _ _).
Qed.

(** C5: when the batch carries the three precomputed tensors, the assembler
    returns exactly these, each moved to the compute device and cast to the
    training precision, and the text encoders are not run (the trace is
    empty, whatever the encoders would do). *)
Theorem cached_batch_is_read_not_encoded (args : Args) (acc : accelerator)
    (batch : gmap string pyval) (toks : Tok * Tok) (tes : Enc * Enc) (w : dtype)
    (t1 t2 t3 : tensor) :
  batch !! "text_encoder_outputs1_list" = Some (PyTensor t1) ->
  batch !! "text_encoder_outputs2_list" = Some (PyTensor t2) ->
  batch !! "text_encoder_pool2_list" = Some (PyTensor t3) ->
  ∃ h1 h2 p2,
    get_text_cond cast get_hidden_states_sdxl args acc batch toks tes w = ([], Ok (h1, h2, p2))
    ∧ h1 = to_dtype cast w (to_device (acc_device acc) t1)
    ∧ h2 = to_dtype cast w (to_device (acc_device acc) t2)
    ∧ p2 = to_dtype cast w (to_device (acc_device acc) t3)
    ∧ Forall (λ t, t_device t = acc_device acc ∧ t_dtype t = w) [h1; h2; p2]
    ∧ t_shape h1 = t_shape t1 ∧ t_shape h2 = t_shape t2 ∧ t_shape p2 = t_shape t3.
Proof.
  intros H1 H2 H3. eexists _, _, _.
  split; [by apply get_text_cond_cached|].
  do 3 (split; [reflexivity|]).
  split.
  - repeat constructor; by rewrite ?to_dtype_device, ?to_dtype_dtype.
  - by rewrite !to_dtype_shape.
Qed.

(** C9: which path the assembler takes is decided by the first precomputed
    field alone. When that field is a tensor no encoder is run; when it is
    missing or None the other two precomputed fields are never read (the
    result is the same whatever they hold). For a batch that satisfies the
    invariant of the data model, a KeyError can only be one that the text
    encoders themselves raised on the live path. *)
Theorem assembler_branches_on_first_output_only (args : Args) (acc : accelerator)
    (batch : gmap string pyval) (toks : Tok * Tok) (tes : Enc * Enc) (w : dtype) :
  (absent_or_none batch "text_encoder_outputs1_list" = false ->
   fst (get_text_cond cast get_hidden_states_sdxl args acc batch toks tes w) = [])
  ∧ (absent_or_none batch "text_encoder_outputs1_list" = true ->
     ∀ v2 v3 : option pyval,
       get_text_cond cast get_hidden_states_sdxl args acc
         (partial_alter (λ _, v2) "text_encoder_outputs2_list"
            (partial_alter (λ _, v3) "text_encoder_pool2_list" batch)) toks tes w
       = get_text_cond cast get_hidden_states_sdxl args acc batch toks tes w)
  ∧ (batch_invariant batch ->
     ∀ k, snd (get_text_cond cast get_hidden_states_sdxl args acc batch toks tes w) = Raise (KeyError k) ->
       absent_or_none batch "text_encoder_outputs1_list" = true
       ∧ ∃ i1 i2,
           batch !! "input_ids" = Some (PyTensor i1)
           ∧ batch !! "input_ids2" = Some (PyTensor i2)
           ∧ get_hidden_states_sdxl (max_token_length args)
               (to_device (acc_device acc) i1) (to_device (acc_device acc) i2)
               toks.1 toks.2 tes.1 tes.2
               (if negb (full_fp16 args) then None else Some w)
             = Raise (KeyError k)).
Proof.
  split; [|split].
  - intros Ha. unfold get_text_cond, py_getitem. rewrite Ha.
    destruct (batch !! "text_encoder_outputs1_list") as [[|?]|]; simpl; [done| |done].
    destruct (batch !! "text_encoder_outputs2_list") as [[|?]|]; simpl; [done| |done].
    by destruct (batch !! "text_encoder_pool2_list") as [[|?]|].
  - intros Ha v2 v3.
    rewrite !get_text_cond_live.
    + by rewrite !lookup_partial_alter_ne.
    + done.
    + unfold absent_or_none in *. by rewrite !lookup_partial_alter_ne.
  - intros [[(t1 & t2 & t3 & H1 & H2 & H3)|(Ha & _)] [[v1 Hv1] [v2 Hv2]]] k Hk.
    + rewrite (get_text_cond_cached _ _ _ _ _ _ _ _ _ H1 H2 H3) in Hk. discriminate.
    + split; [done|]. rewrite (get_text_cond_live _ _ _ _ _ _ Ha), Hv1, Hv2 in Hk.
      destruct v1 as [|i1], v2 as [|i2]; try discriminate. simpl in Hk.
      rewrite Hv1, Hv2. eauto.
Qed.
End AssemblerFacts.

(** C5, witness: a batch of a primed dataset, read for a bfloat16 run on
    device 0 with text encoders that would fail if they were run. *)
Lemma cached_batch_is_read_not_encoded_witness :
  ∃ h1 h2 p2,
    get_text_cond keep failing_encoders (args_cached false) gpu_accelerator
      cached_batch (tt, tt) (tt, tt) BFloat16 = ([], Ok (h1, h2, p2))
    ∧ t_device h1 = Accel 0 ∧ t_dtype p2 = BFloat16.
Proof.
  destruct (cached_batch_is_read_not_encoded keep failing_encoders
              (args_cached false) gpu_accelerator cached_batch (tt, tt) (tt, tt)
              BFloat16 hidden1 hidden2 pooled eq_refl eq_refl eq_refl)
    as (h1 & h2 & p2 & Hrun & -> & -> & -> & _).
  eexists _, _, _. split; [exact Hrun|]. split; reflexivity.
Defined.

(** C9, witness: a primed batch runs no encoder, and a live batch with all
    its fields raises no KeyError when the encoders fail otherwise. *)
Lemma assembler_branches_on_first_output_only_witness :
  fst (get_text_cond keep failing_encoders (args_cached false) gpu_accelerator
         cached_batch (tt, tt) (tt, tt) Float16) = []
  ∧ ∀ k, snd (get_text_cond keep failing_encoders (args_cached false)
                gpu_accelerator live_batch (tt, tt) (tt, tt) Float16)
         ≠ Raise (KeyError k).
Proof.
  split.
  - apply (assembler_branches_on_first_output_only keep failing_encoders
             (args_cached false) gpu_accelerator cached_batch (tt, tt) (tt, tt)
             Float16).
    reflexivity.
  - intros k Hk.
    destruct (assembler_branches_on_first_output_only keep failing_encoders
                (args_cached false) gpu_accelerator live_batch (tt, tt) (tt, tt)
                Float16) as (_ & _ & Hinv).
    destruct (Hinv (conj (or_intror (conj eq_refl (conj eq_refl eq_refl)))
                      (conj (ex_intro _ _ eq_refl) (ex_intro _ _ eq_refl))) k Hk)
      as (_ & i1 & i2 & _ & _ & Hraise).
    discriminate Hraise.
Defined.

(** ** The denoising invoker *)

Section CallUnetFacts.
Context {A : Type}.
Variable cast : dtype -> dtype -> A -> A.
Variable get_size_embeddings :
  pyval (A := A) -> pyval (A := A) -> pyval (A := A) -> device -> res (tensor (A := A)).
Variable unet_forward :
  tensor (A := A) -> tensor (A := A) -> tensor (A := A) -> tensor (A := A) ->
  res (tensor (A := A)).

(** C4: the denoiser is called once, with the latents cast to the training
    precision, the timesteps as given, the text embedding (hidden states 1
    and 2 concatenated along the last axis, cast) and the vector embedding
    (the pooled vector and the cast size embedding concatenated along the
    feature axis, cast); what [call_unet] returns is what the denoiser
    returned, value or exception. Row by row, each embedding is the row of
    its first operand followed by the row of its second. *)
Theorem call_unet_concatenates_and_forwards (acc : accelerator)
    (noisy_latents ts h1 h2 pool2 embs : tensor) (batch : gmap string pyval)
    (w : dtype) (orig crop target : pyval) (b p e b' l d1 d2 : nat) :
  batch !! "original_sizes_hw" = Some orig ->
  batch !! "crop_top_lefts" = Some crop ->
  batch !! "target_sizes_hw" = Some target ->
  get_size_embeddings orig crop target (acc_device acc) = Ok embs ->
  t_shape pool2 = [b; p] -> t_shape embs = [b; e] ->
  t_device pool2 = t_device embs ->
  t_shape h1 = [b'; l; d1] -> t_shape h2 = [b'; l; d2] ->
  t_device h1 = t_device h2 ->
  tensor_wf pool2 -> tensor_wf embs -> tensor_wf h1 -> tensor_wf h2 ->
  ∃ vector_embedding text_embedding,
    torch_cat cast 1 pool2 (to_dtype cast w embs) = Ok vector_embedding
    ∧ torch_cat cast 2 h1 h2 = Ok text_embedding
    ∧ call_unet cast get_size_embeddings unet_forward acc noisy_latents ts
        (h1, h2, pool2) batch w
      = ([EvGetSizeEmbeddings; EvUnetForward],
         unet_forward (to_dtype cast w noisy_latents) ts
           (to_dtype cast w text_embedding) (to_dtype cast w vector_embedding))
    ∧ t_shape (to_dtype cast w vector_embedding) = [b; (p + e)%nat]
    ∧ t_shape (to_dtype cast w text_embedding) = [b'; l; (d1 + d2)%nat]
    ∧ Forall (λ t, t_dtype t = w)
        [to_dtype cast w noisy_latents; to_dtype cast w text_embedding;
         to_dtype cast w vector_embedding]
    ∧ (∀ i, (i < b)%nat ->
         row (p + e) i (t_data vector_embedding)
         = row p i (t_data (to_dtype cast (t_dtype vector_embedding) pool2))
           ++ row e i (t_data (to_dtype cast (t_dtype vector_embedding)
                                 (to_dtype cast w embs))))
    ∧ (∀ i, (i < b' * l)%nat ->
         row (d1 + d2) i (t_data text_embedding)
         = row d1 i (t_data (to_dtype cast (t_dtype text_embedding) h1))
           ++ row d2 i (t_data (to_dtype cast (t_dtype text_embedding) h2))).
Proof.
  intros Ho Hc Ht Hemb Hp He Hd1 Hh1 Hh2 Hd2 Hwp Hwe Hw1 Hw2.
  assert (He' : t_shape (to_dtype cast w embs) = [b; e])
    by (by rewrite to_dtype_shape).
  assert (Hd1' : t_device pool2 = t_device (to_dtype cast w embs))
    by (by rewrite to_dtype_device).
  pose proof (torch_cat_dim1 cast _ _ _ _ _ Hp He' Hd1') as Hvec.
  pose proof (torch_cat_dim2 cast _ _ _ _ _ _ Hh1 Hh2 Hd2) as Htext.
  assert (Hwe' : tensor_wf (to_dtype cast w embs)).
  { unfold tensor_wf. by rewrite to_dtype_data_length, to_dtype_shape. }
  eexists _, _. split; [exact Hvec|]. split; [exact Htext|].
  split; [|split; [|split; [|split; [|split]]]].
  - unfold call_unet, py_getitem. rewrite Ho, Hc, Ht. simpl. rewrite Hemb. simpl.
    rewrite Hvec, Htext. simpl.
    by destruct (unet_forward _ _ _ _).
  - by rewrite to_dtype_shape.
  - by rewrite to_dtype_shape.
  - repeat constructor; apply to_dtype_dtype.
  - by apply (torch_cat_dim1_rows cast _ _ _ b p e Hp He' Hwp Hwe' Hvec).
  - by apply (torch_cat_dim2_rows cast _ _ _ b' l d1 d2 Hh1 Hh2 Hw1 Hw2 Htext).
Qed.

(** Any failure on the way is passed on as it is. *)
Lemma call_unet_propagates (acc : accelerator)
    (noisy_latents ts : tensor) (conds : tensor * tensor * tensor)
    (batch : gmap string pyval) (w : dtype) (orig crop target : pyval) (err : exn) :
  batch !! "original_sizes_hw" = Some orig ->
  batch !! "crop_top_lefts" = Some crop ->
  batch !! "target_sizes_hw" = Some target ->
  get_size_embeddings orig crop target (acc_device acc) = Raise err ->
  call_unet cast get_size_embeddings unet_forward acc noisy_latents ts conds batch w
  = ([EvGetSizeEmbeddings], Raise err).
Proof.
  intros Ho Hc Ht Hemb. unfold call_unet, py_getitem.
  rewrite Ho, Hc, Ht. simpl. by rewrite Hemb.
Qed.
End CallUnetFacts.

(** C4, witness: one sample, hidden sizes 2 and 3, a pooled vector of 3 and
    a size embedding of 2 features; the denoiser echoes the text embedding
    it receives. *)
Lemma call_unet_concatenates_and_forwards_witness :
  call_unet keep two_feature_embedding echo_text cpu_accelerator latents timesteps
    (hidden1, hidden2, pooled) geometry_batch Float32
  = ([EvGetSizeEmbeddings; EvUnetForward],
     Ok (Tensor Cpu Float32 [1; 2; 5]%nat [1; 2; 5; 6; 7; 3; 4; 8; 9; 10]%Z)).
Proof.
  destruct (call_unet_concatenates_and_forwards keep two_feature_embedding echo_text
              cpu_accelerator latents timesteps hidden1 hidden2 pooled
              (Tensor Cpu Float32 [1; 2]%nat [21; 22]%Z) geometry_batch Float32
              (PyTensor size_pair) (PyTensor crop_pair) (PyTensor size_pair)
              1 3 2 1 2 2 3
              eq_refl eq_refl eq_refl eq_refl eq_refl eq_refl eq_refl eq_refl
              eq_refl eq_refl eq_refl eq_refl eq_refl eq_refl)
    as (v & t & Hv & Ht & Hrun & _).
  rewrite Hrun. injection Ht as <-. reflexivity.
Defined.

(** ** The checks on the assigned ids *)

Lemma foldl_min_le (a : Z) (l : list Z) :
  (foldl Z.min a l ≤ a)%Z ∧ Forall (λ y, foldl Z.min a l ≤ y)%Z l.
Proof.
  revert a. induction l as [|x l IH]; intros a; simpl; [by split|].
  destruct (IH (Z.min a x)) as [H1 H2]. split; [lia|].
  constructor; [lia | done].
Qed.

Lemma foldl_min_lower (x0 a : Z) (l : list Z) :
  (x0 ≤ a)%Z -> Forall (λ y, x0 ≤ y)%Z l -> (x0 ≤ foldl Z.min a l)%Z.
Proof.
  revert a. induction l as [|x l IH]; intros a Ha Hl; simpl; [done|].
  inversion Hl; subst. apply IH; [lia | done].
Qed.

Lemma py_min_first (x : Z) (l : list Z) :
  foldl Z.min x l = x ↔ Forall (λ y, x ≤ y)%Z (x :: l).
Proof.
  split.
  - intros Heq. destruct (foldl_min_le x l) as [_ H]. rewrite Heq in H.
    constructor; [lia | done].
  - intros H. inversion H; subst.
    pose proof (foldl_min_lower x x l ltac:(lia) ltac:(done)).
    destruct (foldl_min_le x l). lia.
Qed.

Section IdChecks.
Context {T : Type} {tk : Tokenizer T}.

(** Lines 87 and 90, on a non-empty list. *)
Lemma ids_ordered_nonempty (ids : list Z) :
  ids ≠ [] ->
  ∃ x0 xl, head ids = Some x0 ∧ last ids = Some xl
    ∧ ids_ordered ids
      = Ok (bool_decide (Forall (λ x, x0 ≤ x)%Z ids
                         ∧ xl = (x0 + Z.of_nat (length ids) - 1)%Z)).
Proof.
  intros Hne. destruct ids as [|x0 l]; [done|].
  destruct (last (x0 :: l)) as [xl|] eqn:Hl.
  2: { by apply last_None in Hl. }
  exists x0, xl. split; [done|]. split; [done|].
  unfold ids_ordered, py_last. simpl py_min. simpl py_first. cbn [mbind res_bind].
  rewrite Hl. case_bool_decide as Hm.
  - apply py_min_first in Hm. cbn. f_equal.
    apply bool_decide_ext. split; [by intros ->|by intros [_ ->]].
  - cbn. f_equal. symmetry. apply bool_decide_eq_false.
    intros [Hall _]. by apply py_min_first in Hall.
Qed.

Lemma ids_end_nonempty (tokenizer : T) (ids : list Z) (xl : Z) :
  last ids = Some xl ->
  ids_end tokenizer ids = Ok (bool_decide (tok_len tokenizer - 1 = xl)%Z).
Proof. intros Hl. unfold ids_end, py_last. by rewrite Hl. Qed.

Lemma ids_pass_checks (tokenizer : T) (ids : list Z) :
  ids ≠ [] ->
  ∃ o e, ids_ordered ids = Ok o ∧ ids_end tokenizer ids = Ok e
         ∧ (ids_pass (tok_len tokenizer) ids ↔ o = true ∧ e = true).
Proof.
  intros Hne. destruct (ids_ordered_nonempty ids Hne) as (x0 & xl & Hh & Hl & Ho).
  eexists _, _. split; [exact Ho|]. split; [by apply ids_end_nonempty|].
  rewrite bool_decide_eq_true, bool_decide_eq_true. unfold ids_pass. split.
  - intros (y0 & yl & Hh' & Hl' & Hall & Hlen & Hend).
    rewrite Hh in Hh'. rewrite Hl in Hl'.
    injection Hh' as <-. injection Hl' as <-. done.
  - intros [[Hall Hlen] Hend]. by exists x0, xl.
Qed.

(** A contiguous ascending block that ends at the last id passes. *)
Lemma spec_ids_ok_pass (prev_max : Z) (tokenizer : T) (ids : list Z) :
  ids ≠ [] -> spec_ids_ok prev_max (tok_len tokenizer) ids ->
  ids_pass (tok_len tokenizer) ids.
Proof.
  intros Hne [Hids Hlast].
  destruct (length ids) as [|n] eqn:Hn; [by destruct ids|].
  exists (prev_max + 1)%Z, (tok_len tokenizer - 1)%Z.
  split; [rewrite Hids; simpl; f_equal; lia|]. split; [done|].
  split; [|split; [|done]].
  - rewrite Hids. apply Forall_fmap, Forall_forall. intros i _. simpl. lia.
  - rewrite Hids, seq_S, fmap_app in Hlast. simpl in Hlast.
    rewrite last_snoc in Hlast. injection Hlast as Hlast. lia.
Qed.
End IdChecks.

Section RegisterFileFacts.
Context {V T : Type} {tk : Tokenizer T}.
Variable is_safetensors : string -> bool.
Variable load_file : string -> res (file_data (V := V)).
Variable torch_load : string -> res (file_data (V := V)).
Variable path_stem : string -> string.

(** The loop body after the file is read and the strings are added: what
    the four id assertions decide. *)
Lemma register_file_ids_outcome (args : Args) (st : ti_state)
    (embeds_file : string) (embeds1 embeds2 : list V) (tok1 tok2 : T) :
  file_embeds is_safetensors load_file torch_load embeds_file
  = Ok (embeds1, embeds2) ->
  add_tokens (tokenizers st).1 (file_token_strings path_stem args embeds_file embeds1)
  = (tok1, Z.of_nat (length embeds1)) ->
  add_tokens (tokenizers st).2 (file_token_strings path_stem args embeds_file embeds1)
  = (tok2, Z.of_nat (length embeds1)) ->
  let ids1 := convert_tokens_to_ids tok1
                (file_token_strings path_stem args embeds_file embeds1) in
  let ids2 := convert_tokens_to_ids tok2
                (file_token_strings path_stem args embeds_file embeds1) in
  let accepted :=
    Ok (TiState (tok1, tok2) (token_ids_embeds1 st ++ [(ids1, embeds1)])
          (token_ids_embeds2 st ++ [(ids2, embeds2)])) in
  let outcome :=
    register_file is_safetensors load_file torch_load path_stem args st embeds_file in
  ids1 ≠ [] -> ids2 ≠ [] ->
  (ids_pass (tok_len tok1) ids1 ∧ ids_pass (tok_len tok2) ids2 -> outcome = accepted)
  ∧ (¬ (ids_pass (tok_len tok1) ids1 ∧ ids_pass (tok_len tok2) ids2) ->
     ∃ a, outcome = Raise (AssertionError a)
          ∧ a ∈ [AssertIds1Ordered; AssertIds2Ordered; AssertIds1End; AssertIds2End]
          ∧ taxonomy (AssertionError a) = VocabularyIntegrityError)
  ∧ (∀ p1 p2, spec_ids_ok p1 (tok_len tok1) ids1 ->
              spec_ids_ok p2 (tok_len tok2) ids2 -> outcome = accepted).
Proof.
  intros Hfe Ha1 Ha2 ids1 ids2 accepted outcome Hne1 Hne2.
  destruct (ids_pass_checks tok1 ids1 Hne1) as (o1 & e1 & Ho1 & He1 & Hp1).
  destruct (ids_pass_checks tok2 ids2 Hne2) as (o2 & e2 & Ho2 & He2 & Hp2).
  assert (Hrun : outcome
                 = (py_assert o1 AssertIds1Ordered;;
                    py_assert o2 AssertIds2Ordered;;
                    py_assert e1 AssertIds1End;;
                    py_assert e2 AssertIds2End;;
                    accepted)).
  { unfold outcome, register_file. rewrite Hfe. cbn [mbind res_bind].
    unfold file_token_strings in *. rewrite Ha1, Ha2.
    rewrite !bool_decide_eq_true_2 by done. cbn [andb py_assert mbind res_bind].
    fold ids1 ids2. rewrite Ho1. cbn [mbind res_bind].
    destruct o1; [|done]. cbn [py_assert mbind res_bind]. rewrite Ho2.
    cbn [mbind res_bind]. destruct o2; [|done]. cbn [py_assert mbind res_bind].
    rewrite He1. cbn [mbind res_bind]. destruct e1; [|done].
    cbn [py_assert mbind res_bind]. rewrite He2. cbn [mbind res_bind].
    by destruct e2. }
  assert (Hacc : ids_pass (tok_len tok1) ids1 ∧ ids_pass (tok_len tok2) ids2 ->
                 outcome = accepted).
  { intros [H1 H2]. apply Hp1 in H1 as [-> ->]. apply Hp2 in H2 as [-> ->].
    exact Hrun. }
  split; [exact Hacc|]. split.
  - intros Hnot. rewrite Hrun.
    destruct o1.
    2: { exists AssertIds1Ordered. split; [done|]. split; [|done].
         apply elem_of_cons. by left. }
    destruct o2.
    2: { exists AssertIds2Ordered. split; [done|]. split; [|done].
         do 1 (apply elem_of_cons; right). apply elem_of_cons. by left. }
    destruct e1.
    2: { exists AssertIds1End. split; [done|]. split; [|done].
         do 2 (apply elem_of_cons; right). apply elem_of_cons. by left. }
    destruct e2.
    2: { exists AssertIds2End. split; [done|]. split; [|done].
         do 3 (apply elem_of_cons; right). apply elem_of_cons. by left. }
    exfalso. apply Hnot. split; [by apply Hp1 | by apply Hp2].
  - intros p1 p2 Hs1 Hs2. apply Hacc. split; by eapply spec_ids_ok_pass.
Qed.

(** C2 (as amended): once a file is read and both tokenizers have added as
    many strings as the first tensor has rows, the loop body requires of
    each non-empty list of assigned ids that its first id is its least, that
    its last id is the first plus the number of ids minus one, and that its
    last id is the tokenizer's length minus one. When both lists meet this
    the file is accepted; when one does not, the body fails on one of the
    four id assertions (a VocabularyIntegrityError). Ids that are contiguous
    and ascending and end at the new vocabulary size minus one meet it. *)
Theorem register_file_checks_ids (args : Args) (st : ti_state)
    (embeds_file : string) (embeds1 embeds2 : list V) (tok1 tok2 : T) :
  file_embeds is_safetensors load_file torch_load embeds_file
  = Ok (embeds1, embeds2) ->
  add_tokens (tokenizers st).1 (file_token_strings path_stem args embeds_file embeds1)
  = (tok1, Z.of_nat (length embeds1)) ->
  add_tokens (tokenizers st).2 (file_token_strings path_stem args embeds_file embeds1)
  = (tok2, Z.of_nat (length embeds1)) ->
  let ids1 := convert_tokens_to_ids tok1
                (file_token_strings path_stem args embeds_file embeds1) in
  let ids2 := convert_tokens_to_ids tok2
                (file_token_strings path_stem args embeds_file embeds1) in
  let accepted :=
    Ok (TiState (tok1, tok2) (token_ids_embeds1 st ++ [(ids1, embeds1)])
          (token_ids_embeds2 st ++ [(ids2, embeds2)])) in
  let outcome :=
    register_file is_safetensors load_file torch_load path_stem args st embeds_file in
  ids1 ≠ [] -> ids2 ≠ [] ->
  (ids_pass (tok_len tok1) ids1 ∧ ids_pass (tok_len tok2) ids2 -> outcome = accepted)
  ∧ (¬ (ids_pass (tok_len tok1) ids1 ∧ ids_pass (tok_len tok2) ids2) ->
     ∃ a, outcome = Raise (AssertionError a)
          ∧ a ∈ [AssertIds1Ordered; AssertIds2Ordered; AssertIds1End; AssertIds2End]
          ∧ taxonomy (AssertionError a) = VocabularyIntegrityError)
  ∧ (∀ p1 p2, spec_ids_ok p1 (tok_len tok1) ids1 ->
              spec_ids_ok p2 (tok_len tok2) ids2 -> outcome = accepted).
Proof. apply register_file_ids_outcome. Qed.
End RegisterFileFacts.

(** C2, witness: the file "foo" (four vectors) on a tokenizer of three
    tokens gets the ids 3 to 6 and is accepted. *)
Lemma register_file_checks_ids_witness :
  register_file always_safetensors disk disk stem_is_path (args_ti ["foo"])
    (TiState (clip_tokenizer, clip_tokenizer) [] []) "foo"
  = Ok (TiState
          (HfTokenizer ["<unk>"; "a"; "b"; "foo"; "foo1"; "foo2"; "foo3"] 0,
           HfTokenizer ["<unk>"; "a"; "b"; "foo"; "foo1"; "foo2"; "foo3"] 0)
          [([3; 4; 5; 6]%Z, [10; 11; 12; 13])]
          [([3; 4; 5; 6]%Z, [20; 21; 22; 23])]).
Proof.
  assert (Hpass : ids_pass 7 [3; 4; 5; 6]%Z).
  { exists 3%Z, 6%Z. split; [reflexivity|]. split; [reflexivity|].
    split; [|split; reflexivity]. repeat constructor; lia. }
  apply (register_file_checks_ids always_safetensors disk disk stem_is_path
           (args_ti ["foo"]) (TiState (clip_tokenizer, clip_tokenizer) [] []) "foo"
           [10; 11; 12; 13] [20; 21; 22; 23]
           (HfTokenizer ["<unk>"; "a"; "b"; "foo"; "foo1"; "foo2"; "foo3"] 0)
           (HfTokenizer ["<unk>"; "a"; "b"; "foo"; "foo1"; "foo2"; "foo3"] 0)
           ltac:(vm_compute; reflexivity) ltac:(vm_compute; reflexivity)
           ltac:(vm_compute; reflexivity) ltac:(vm_compute; discriminate)
           ltac:(vm_compute; discriminate)).
  split; exact Hpass.
Defined.

(** C2, as stated, fails: a tokenizer that assigns the four new ids as
    2, 4, 3, 5 passes every check, and the load succeeds, although the ids
    are not ascending. *)
Lemma unordered_ids_are_accepted :
  ∃ st toks encs,
    register_file (tk := perm_tokenizer_ops) always_safetensors disk disk
      stem_is_path (args_ti ["foo"]) (TiState (perm_start, perm_start) [] []) "foo"
    = Ok st
    ∧ token_ids_embeds1 st = [([2; 4; 3; 5]%Z, [10; 11; 12; 13])]
    ∧ tok_len (Tokenizer := perm_tokenizer_ops) (tokenizers st).1 = 6%Z
    ∧ load_textual_inversion (tk := perm_tokenizer_ops) always_safetensors disk disk
        stem_is_path numbered_row (args_ti ["foo"]) (perm_start, perm_start)
        (TextEncoder (Module_ Cpu Float32) [0; 1], TextEncoder (Module_ Cpu Float32) [0; 1])
      = Ok (toks, encs)
    ∧ ∀ prev_max, ¬ spec_ids_ok prev_max 6 [2; 4; 3; 5]%Z.
Proof.
  eexists _, _, _. split; [vm_compute; reflexivity|].
  split; [reflexivity|]. split; [reflexivity|].
  split; [vm_compute; reflexivity|].
  intros prev_max [Hids _]. simpl in Hids.
  injection Hids as H0 H1 H2 H3. lia.
Qed.

(** ** The tokenizer of the trainer *)

Lemma iota_length (L k : nat) : length (iota L k) = k.
Proof. unfold iota. by rewrite length_fmap, length_seq. Qed.

Lemma iota_S (L k : nat) : iota L (S k) = Z.of_nat L :: iota (S L) k.
Proof.
  unfold iota. simpl. rewrite Nat.add_0_r. f_equal.
  rewrite <- fmap_S_seq, <- list_fmap_compose.
  apply list_fmap_ext. intros i x _. simpl. f_equal. lia.
Qed.

Lemma iota_spec_ok (L k : nat) :
  spec_ids_ok (Z.of_nat L - 1) (Z.of_nat (L + S k)) (iota L (S k)).
Proof.
  split.
  - rewrite iota_length. unfold iota.
    apply list_fmap_ext. intros i x _. lia.
  - unfold iota. rewrite seq_S, fmap_app. simpl. rewrite last_snoc.
    f_equal. lia.
Qed.

Lemma hf_fold (ss : list string) (v : list string) (c : Z) :
  let r := foldl hf_add_token (v, c) ss in
  (c ≤ r.2 ≤ c + Z.of_nat (length ss))%Z
  ∧ (∀ s, s ∈ v ∨ s ∈ ss -> s ∈ r.1)
  ∧ (r.2 = (c + Z.of_nat (length ss))%Z ↔ fresh_all v ss)
  ∧ (fresh_all v ss -> r.1 = v ++ ss).
Proof.
  revert v c. induction ss as [|s ss IH]; intros v c; simpl.
  - split; [lia|]. split.
    + intros s [?|Hs]; [done|]. by apply elem_of_nil in Hs.
    + split; [|intros _; by rewrite app_nil_r].
      split; [intros _; split; constructor | intros _; lia].
  - assert (Hstep : hf_add_token (v, c) s
                    = if decide (s ∈ v) then (v, c) else (v ++ [s], (c + 1)%Z))
      by done.
    rewrite Hstep. clear Hstep. destruct (decide (s ∈ v)) as [Hin|Hin].
    + destruct (IH v c) as (Hr & Hmem & Hfresh & Happ). split; [lia|]. split.
      * intros s' [?|Hs']; [by apply Hmem; left|].
        apply elem_of_cons in Hs' as [->|?]; apply Hmem; [by left | by right].
      * assert (Hno : ¬ fresh_all v (s :: ss)).
        { intros [_ Hall]. by inversion Hall. }
        split; [|done]. split; [lia | done].
    + destruct (IH (v ++ [s]) (c + 1)%Z) as (Hr & Hmem & Hfresh & Happ).
      assert (Heq : fresh_all (v ++ [s]) ss ↔ fresh_all v (s :: ss)).
      { unfold fresh_all. rewrite NoDup_cons, Forall_cons. split.
        - intros [Hnd Hall]. split; [split; [|done]|split; [done|]].
          + intros Hs. rewrite Forall_forall in Hall.
            apply (Hall s Hs). apply elem_of_app. right. by apply list_elem_of_singleton.
          + eapply Forall_impl; [exact Hall|]. intros x Hx Hxv. apply Hx.
            apply elem_of_app. by left.
        - intros [[Hs Hnd] [_ Hall]]. split; [done|].
          apply Forall_forall. intros x Hx Hxv.
          apply elem_of_app in Hxv as [Hxv|Hxs].
          + rewrite Forall_forall in Hall. by apply (Hall x).
          + apply list_elem_of_singleton in Hxs as ->. done. }
      split; [lia|]. split; [|split].
      * intros s' Hs'. apply Hmem. rewrite elem_of_app, list_elem_of_singleton.
        destruct Hs' as [?|Hs']; [by left; left|].
        apply elem_of_cons in Hs' as [->|?]; [by left; right | by right].
      * rewrite <- Heq, <- Hfresh. lia.
      * intros Hf. apply Heq in Hf. rewrite (Happ Hf). by rewrite <- app_assoc.
Qed.

Lemma hf_add_tokens_fresh (t : hf_tokenizer) (ss : list string) :
  fresh_all (vocab t) ss ->
  hf_add_tokens t ss
  = (HfTokenizer (vocab t ++ ss) (unk_token_id t), Z.of_nat (length ss)).
Proof.
  intros Hf. unfold hf_add_tokens.
  destruct (hf_fold ss (vocab t) 0) as (_ & _ & Hcount & Happ).
  destruct (foldl hf_add_token (vocab t, 0%Z) ss) as [v n]. simpl in *.
  rewrite (Happ Hf). f_equal. by apply Hcount.
Qed.

Lemma hf_add_tokens_not_fresh (t : hf_tokenizer) (ss : list string) :
  ¬ fresh_all (vocab t) ss -> (hf_add_tokens t ss).2 ≠ Z.of_nat (length ss).
Proof.
  intros Hf Heq. apply Hf. unfold hf_add_tokens in Heq.
  destruct (hf_fold ss (vocab t) 0) as (_ & _ & Hcount & _).
  destruct (foldl hf_add_token (vocab t, 0%Z) ss) as [v n]. simpl in *.
  by apply Hcount.
Qed.


(** Fresh strings get the ids that follow the old vocabulary. *)
Lemma hf_ids_of_fresh (v ss : list string) (u : Z) :
  fresh_all v ss ->
  hf_token_to_id (HfTokenizer (v ++ ss) u) <$> ss = iota (length v) (length ss).
Proof.
  intros [Hnd Hall]. apply list_eq. intros i.
  unfold iota. rewrite !list_lookup_fmap.
  destruct (ss !! i) as [s|] eqn:Hi; simpl.
  - rewrite lookup_seq_lt by (by eapply lookup_lt_Some). simpl. f_equal.
    unfold hf_token_to_id. simpl.
    assert (Hfind : list_find (λ x, x = s) (v ++ ss) = Some ((length v + i)%nat, s)).
    { apply list_find_Some. split; [|split; [done|]].
      - rewrite lookup_app_r by lia. by replace (length v + i - length v)%nat with i by lia.
      - intros j y Hj Hlt ->.
        destruct (decide (j < length v)%nat) as [Hjv|Hjv].
        + rewrite lookup_app_l in Hj by done.
          rewrite Forall_forall in Hall. apply (Hall s).
          * by eapply list_elem_of_lookup_2.
          * by eapply list_elem_of_lookup_2.
        + rewrite lookup_app_r in Hj by lia.
          assert (j - length v = i)%nat by (by eapply NoDup_lookup).
          lia. }
    by rewrite Hfind.
  - apply lookup_ge_None in Hi.
    by rewrite (lookup_ge_None_2 (seq 0 (length ss)) i) by (by rewrite length_seq).
Qed.

(** ** Writing the rows *)

Section AssignFacts.
Context {V : Type}.
Implicit Types (w tail e : list V) (l : list (nat * list V)).

Lemma setitem_in_range w (i : nat) (x : V) :
  (i < length w)%nat -> setitem w (Z.of_nat i) x = Ok (<[i := x]> w).
Proof.
  intros Hi. unfold setitem. rewrite decide_True by lia. by rewrite Nat2Z.id.
Qed.

(** Writing the tensor [e] at the ids [L .. L+k-1]: the pairing stops at
    the shorter of the two. *)
Lemma assign_rows_iota w (L k : nat) e :
  (L + k ≤ length w)%nat ->
  assign_rows w (iota L k) e
  = Ok (take L w ++ take k e ++ drop (L + k `min` length e) w).
Proof.
  revert w L e. induction k as [|k IH]; intros w L e Hlen.
  - simpl. rewrite Nat.add_0_r. by rewrite take_drop.
  - rewrite iota_S. destruct e as [|x e]; simpl.
    + rewrite Nat.add_0_r. by rewrite take_drop.
    + rewrite setitem_in_range by lia. cbn [mbind res_bind].
      rewrite IH by (rewrite length_insert; lia). f_equal.
      rewrite (take_S_r (<[L:=x]> w) L x) by (apply list_lookup_insert_eq; lia).
      rewrite take_insert_ge by lia.
      rewrite drop_insert_lt by lia.
      rewrite <- app_assoc. simpl. by rewrite Nat.add_succ_r.
Qed.

Lemma fill_length tail l :
  (sum_list (l.*1) ≤ length tail)%nat -> length (fill tail l) = length tail.
Proof.
  revert tail. induction l as [|[k e] l IH]; intros tail Hlen; [done|].
  change (k + sum_list (l.*1) ≤ length tail)%nat in Hlen.
  simpl. rewrite !length_app, !length_take, IH, !length_drop.
  - lia.
  - rewrite length_drop. lia.
Qed.

(** All the files, one block after the other from row [L] on. *)
Lemma assign_all_segs w (L : nat) l :
  (L + sum_list (l.*1) ≤ length w)%nat ->
  assign_all w (segs L l) = Ok (take L w ++ fill (drop L w) l).
Proof.
  revert w L. induction l as [|[k e] l IH]; intros w L Hlen; simpl.
  - by rewrite take_drop.
  - change (L + (k + sum_list (l.*1)) ≤ length w)%nat in Hlen.
    rewrite assign_rows_iota by lia. cbn [mbind res_bind].
    set (m := (k `min` length e)%nat).
    assert (Hm : length (take k e) = m) by (by rewrite length_take).
    assert (HL : length (take L w) = L) by (rewrite length_take; lia).
    rewrite IH.
    2: { rewrite !length_app, length_drop, HL, Hm. lia. }
    f_equal.
    rewrite app_assoc.
    replace (L + k)%nat with (length (take L w ++ take k e) + (k - m))%nat
      by (rewrite length_app; lia).
    rewrite take_app_add, drop_app_add, drop_drop, <- !app_assoc.
    do 2 f_equal.
    replace (L + m + (k - m))%nat with (L + k)%nat by lia.
    rewrite !drop_drop. f_equal.
    destruct (decide (length e ≤ k)%nat).
    + by replace m with (length e) by lia.
    + replace (k - m)%nat with 0%nat by lia.
      replace (k - length e)%nat with 0%nat by lia. done.
Qed.

(** When each tensor has as many rows as its block, the blocks are the
    tensors. *)
Lemma fill_exact tail l :
  Forall (λ ke, length ke.2 = ke.1) l -> length tail = sum_list (l.*1) ->
  fill tail l = concat (l.*2).
Proof.
  revert tail. induction l as [|[k e] l IH]; intros tail Hall Hlen; simpl.
  - by destruct tail.
  - change (length tail = k + sum_list (l.*1))%nat in Hlen.
    inversion Hall as [|? ? Hk Hall']; subst. simpl in Hk. subst k.
    rewrite firstn_all, Nat.sub_diag, take_0. simpl. f_equal.
    apply IH; [done|]. rewrite length_drop. lia.
Qed.

(** The block of the file at position [j]. *)
Lemma fill_block tail l (j k : nat) e :
  l !! j = Some (k, e) -> (sum_list (l.*1) ≤ length tail)%nat ->
  let o := sum_list ((take j l).*1) in
  take k (drop o (fill tail l))
  = take k e ++ take (k - length e) (drop (o + length e) tail).
Proof.
  revert tail j. induction l as [|[k0 e0] l IH]; intros tail j Hj Hlen; [done|].
  change (k0 + sum_list (l.*1) ≤ length tail)%nat in Hlen. destruct j as [|j].
  - injection Hj as -> ->. simpl.
    rewrite drop_0, app_assoc.
    rewrite take_app_length'; [done|].
    rewrite length_app, !length_take, length_drop. lia.
  - change (l !! j = Some (k, e)) in Hj. cbn zeta.
    change (sum_list ((take (S j) ((k0, e0) :: l)).*1))
      with (k0 + sum_list ((take j l).*1))%nat.
    change (fill tail ((k0, e0) :: l))
      with (take k0 e0 ++ take (k0 - length e0) (drop (length e0) tail)
            ++ fill (drop k0 tail) l).
    set (o := sum_list ((take j l).*1)).
    assert (Hpre : length (take k0 e0 ++ take (k0 - length e0) (drop (length e0) tail))
                   = k0).
    { rewrite length_app, !length_take, length_drop. lia. }
    rewrite app_assoc.
    replace (k0 + o)%nat
      with (length (take k0 e0 ++ take (k0 - length e0) (drop (length e0) tail)) + o)%nat
      by (by rewrite Hpre).
    rewrite drop_app_add.
    assert (Hfit : (sum_list (l.*1) ≤ length (drop k0 tail))%nat)
      by (rewrite length_drop; lia).
    pose proof (IH (drop k0 tail) j Hj Hfit) as IHj. cbn zeta in IHj.
    fold o in IHj. rewrite IHj, drop_drop. do 3 f_equal. lia.
Qed.
End AssignFacts.

(** ** The loader on the trainer's tokenizers *)

(** From a successful sequence of steps, the value of its first step. *)
Ltac bind_ok H :=
  match type of H with
  | mbind _ ?r = Ok _ =>
      let x := fresh "x" in
      destruct r as [x|] eqn:?; cbn [mbind res_bind] in H; [|discriminate H]
  end.

Lemma make_token_strings_length (s : string) (k : nat) :
  k ≠ 0%nat -> length (make_token_strings s k) = k.
Proof.
  intros Hk. unfold make_token_strings. simpl.
  rewrite length_fmap, length_seq. lia.
Qed.

Lemma make_token_strings_base (s : string) (k : nat) : s ∈ make_token_strings s k.
Proof. unfold make_token_strings. apply elem_of_cons. by left. Qed.

Lemma fresh_all_dec (v ss : list string) : {fresh_all v ss} + {¬ fresh_all v ss}.
Proof. unfold fresh_all. exact (decide (NoDup ss ∧ Forall (λ s, s ∉ v) ss)). Qed.

Lemma fresh_all_app (v a b : list string) :
  fresh_all v (a ++ b) ↔ fresh_all v a ∧ fresh_all (v ++ a) b.
Proof.
  unfold fresh_all. rewrite NoDup_app, Forall_app. split.
  - intros [(Ha & Hab & Hb) [Hva Hvb]]. split; [done|]. split; [done|].
    apply Forall_forall. intros x Hx Hin. apply elem_of_app in Hin as [Hin|Hin].
    + rewrite Forall_forall in Hvb. by apply (Hvb x).
    + by apply (Hab x).
  - intros [[Ha Hva] [Hb Hvab]]. rewrite Forall_forall in Hvab.
    split; [split; [done|split; [|done]]|split; [done|]].
    + intros x Hxa Hxb. apply (Hvab x Hxb). apply elem_of_app. by right.
    + apply Forall_forall. intros x Hxb Hxv. apply (Hvab x Hxb).
      apply elem_of_app. by left.
Qed.

Lemma fresh_all_member (v ss : list string) (s : string) :
  s ∈ ss -> s ∈ v -> ¬ fresh_all v ss.
Proof. intros Hs Hv [_ Hall]. rewrite Forall_forall in Hall. by apply (Hall s). Qed.

Section HfLoaderFacts.
Context {V : Type}.
Variable is_safetensors : string -> bool.
Variable load_file : string -> res (file_data (V := V)).
Variable torch_load : string -> res (file_data (V := V)).
Variable path_stem : string -> string.
Variable fresh_row : nat -> nat -> V.

Lemma file_token_strings_length (args : Args) (f : string) (e1 : list V) :
  e1 ≠ [] -> length (file_token_strings path_stem args f e1) = length e1.
Proof. intros He. apply make_token_strings_length. by destruct e1. Qed.

(** A file whose strings are all new to both tokenizers is accepted; its
    ids follow the old vocabularies. *)
Lemma register_file_hf_fresh (args : Args) (st : ti_state) (f : string)
    (e1 e2 : list V) :
  file_embeds is_safetensors load_file torch_load f = Ok (e1, e2) ->
  e1 ≠ [] ->
  let ss := file_token_strings path_stem args f e1 in
  let t1 := (tokenizers st).1 in
  let t2 := (tokenizers st).2 in
  fresh_all (vocab t1) ss -> fresh_all (vocab t2) ss ->
  register_file is_safetensors load_file torch_load path_stem args st f
  = Ok (TiState (HfTokenizer (vocab t1 ++ ss) (unk_token_id t1),
                 HfTokenizer (vocab t2 ++ ss) (unk_token_id t2))
          (token_ids_embeds1 st ++ [(iota (length (vocab t1)) (length e1), e1)])
          (token_ids_embeds2 st ++ [(iota (length (vocab t2)) (length e1), e2)])).
Proof.
  intros Hfe He ss t1 t2 Hf1 Hf2.
  assert (Hlen : length ss = length e1) by (by apply file_token_strings_length).
  assert (Hk : ∃ k, length e1 = S k).
  { destruct e1; [done|]. by eexists. }
  destruct Hk as [k Hk].
  pose proof (hf_add_tokens_fresh t1 ss Hf1) as Ha1.
  pose proof (hf_add_tokens_fresh t2 ss Hf2) as Ha2.
  rewrite Hlen in Ha1, Ha2.
  destruct (register_file_ids_outcome (tk := hf_tokenizer_ops) is_safetensors
              load_file torch_load path_stem args st f e1 e2 _ _ Hfe Ha1 Ha2)
    as (_ & _ & Hok).
  - change (hf_token_to_id (HfTokenizer (vocab t1 ++ ss) (unk_token_id t1)) <$> ss ≠ []).
    rewrite (hf_ids_of_fresh _ _ _ Hf1), Hlen, Hk. by rewrite iota_S.
  - change (hf_token_to_id (HfTokenizer (vocab t2 ++ ss) (unk_token_id t2)) <$> ss ≠ []).
    rewrite (hf_ids_of_fresh _ _ _ Hf2), Hlen, Hk. by rewrite iota_S.
  - cbn [convert_tokens_to_ids tok_len hf_tokenizer_ops vocab] in Hok. fold ss in Hok.
    rewrite (hf_ids_of_fresh _ _ _ Hf1), (hf_ids_of_fresh _ _ _ Hf2), Hlen in Hok.
    apply (Hok (Z.of_nat (length (vocab t1)) - 1)%Z (Z.of_nat (length (vocab t2)) - 1)%Z).
    + rewrite length_app, Hlen, Hk. apply iota_spec_ok.
    + rewrite length_app, Hlen, Hk. apply iota_spec_ok.
Qed.

(** A file one of whose strings is known to one of the tokenizers, or
    repeated, fails the count assertion. *)
Lemma register_file_hf_conflict (args : Args) (st : ti_state) (f : string)
    (e1 e2 : list V) :
  file_embeds is_safetensors load_file torch_load f = Ok (e1, e2) ->
  e1 ≠ [] ->
  let ss := file_token_strings path_stem args f e1 in
  ¬ (fresh_all (vocab (tokenizers st).1) ss ∧ fresh_all (vocab (tokenizers st).2) ss) ->
  register_file is_safetensors load_file torch_load path_stem args st f
  = Raise (AssertionError AssertNumAdded).
Proof.
  intros Hfe He ss Hnot.
  assert (Hlen : length ss = length e1) by (by apply file_token_strings_length).
  unfold register_file. rewrite Hfe. cbn [mbind res_bind].
  change (make_token_strings _ _) with ss. cbn [add_tokens hf_tokenizer_ops].
  pose proof (hf_add_tokens_not_fresh (tokenizers st).1 ss) as Hn1.
  pose proof (hf_add_tokens_not_fresh (tokenizers st).2 ss) as Hn2.
  destruct (hf_add_tokens (tokenizers st).1 ss) as [tok1 n1].
  destruct (hf_add_tokens (tokenizers st).2 ss) as [tok2 n2].
  cbn [snd] in Hn1, Hn2. rewrite Hlen in Hn1, Hn2.
  destruct (fresh_all_dec (vocab (tokenizers st).1) ss) as [Hf1|Hf1].
  - destruct (fresh_all_dec (vocab (tokenizers st).2) ss) as [Hf2|Hf2]; [by destruct Hnot|].
    rewrite (bool_decide_eq_false_2 (n2 = _)) by (by apply Hn2).
    by rewrite andb_false_r.
  - by rewrite (bool_decide_eq_false_2 (n1 = _)) by (by apply Hn1).
Qed.

End HfLoaderFacts.

Section ConflictFacts.
Context {V : Type}.
Variable is_safetensors : string -> bool.
Variable load_file : string -> res (file_data (V := V)).
Variable torch_load : string -> res (file_data (V := V)).
Variable path_stem : string -> string.
Variable fresh_row : nat -> nat -> V.



End ConflictFacts.



(** ** The whole load on the trainer's tokenizers *)

Lemma blocks1_sizes {V} (embs : list (list V * list V)) :
  (blocks1 embs).*1 = (blocks2 embs).*1.
Proof.
  unfold blocks1, blocks2. rewrite <- !list_fmap_compose. by apply list_fmap_ext.
Qed.

(** The embedding table after the resize to [L + K] rows, split at [L]. *)
Lemma resized_split {V} (g : nat -> V) (old : list V) (L K : nat) :
  (length old ≤ L)%nat ->
  let w := take (L + K) old ++ (g <$> seq (length old) (L + K - length old)) in
  length w = (L + K)%nat
  ∧ take L w = old ++ (g <$> seq (length old) (L - length old))
  ∧ drop L w = g <$> seq L K.
Proof.
  intros Hold w. subst w. rewrite (take_ge old) by lia.
  split; [|split].
  - rewrite length_app, length_fmap, length_seq. lia.
  - rewrite take_app_ge by lia. f_equal.
    rewrite <- fmap_take, take_seq. do 2 f_equal. lia.
  - rewrite drop_app_ge by lia.
    rewrite <- fmap_drop, drop_seq. f_equal. f_equal; lia.
Qed.

Section HfLoadFacts.
Context {V : Type}.
Variable is_safetensors : string -> bool.
Variable load_file : string -> res (file_data (V := V)).
Variable torch_load : string -> res (file_data (V := V)).
Variable path_stem : string -> string.
Variable fresh_row : nat -> nat -> V.

Lemma all_token_strings_cons (args : Args) (f : string) (files : list string)
    (e : list V * list V) (embs : list (list V * list V)) :
  all_token_strings path_stem args (f :: files) (e :: embs)
  = file_token_strings path_stem args f e.1
    ++ all_token_strings path_stem args files embs.
Proof. reflexivity. Qed.

Lemma all_token_strings_length (args : Args) (files : list string)
    (embs : list (list V * list V)) :
  length files = length embs -> Forall (λ e, e.1 ≠ []) embs ->
  length (all_token_strings path_stem args files embs) = sum_list ((blocks1 embs).*1).
Proof.
  revert embs. induction files as [|f files IH]; intros [|e embs] Hlen Hne;
    try done.
  inversion Hne; subst. rewrite all_token_strings_cons.
  change (sum_list ((blocks1 (e :: embs)).*1))
    with (length e.1 + sum_list ((blocks1 embs).*1))%nat.
  rewrite length_app, file_token_strings_length by done. f_equal.
  apply IH; [by injection Hlen | done].
Qed.

(** The loop over files that are all new to both tokenizers. *)
Lemma register_files_hf_fresh (args : Args) (files : list string)
    (embs : list (list V * list V)) (st : ti_state) :
  Forall2 (λ f e, file_embeds is_safetensors load_file torch_load f = Ok e) files embs ->
  Forall (λ e, e.1 ≠ []) embs ->
  let sss := all_token_strings path_stem args files embs in
  let t1 := (tokenizers st).1 in
  let t2 := (tokenizers st).2 in
  fresh_all (vocab t1) sss -> fresh_all (vocab t2) sss ->
  register_files is_safetensors load_file torch_load path_stem args st files
  = Ok (TiState (HfTokenizer (vocab t1 ++ sss) (unk_token_id t1),
                 HfTokenizer (vocab t2 ++ sss) (unk_token_id t2))
          (token_ids_embeds1 st ++ segs (length (vocab t1)) (blocks1 embs))
          (token_ids_embeds2 st ++ segs (length (vocab t2)) (blocks2 embs))).
Proof.
  intros Hfiles. revert st.
  induction Hfiles as [|f [e1 e2] files embs Hfe Hfiles IH]; intros st Hne; cbn zeta.
  - intros _ _. unfold all_token_strings. simpl. rewrite !app_nil_r.
    by destruct st as [[[] []] ? ?].
  - inversion Hne as [|? ? He Hne']; subst. simpl in He.
    rewrite !all_token_strings_cons. cbn [fst].
    intros [Hf1 Hr1]%fresh_all_app [Hf2 Hr2]%fresh_all_app.
    simpl register_files.
    rewrite (register_file_hf_fresh _ _ _ _ _ _ _ e1 e2 Hfe He Hf1 Hf2).
    cbn [mbind res_bind].
    match goal with
    | |- context [register_files _ _ _ _ _ ?s files] => rewrite (IH s Hne' Hr1 Hr2)
    end.
    simpl.
    rewrite <- !app_assoc, !length_app.
    rewrite (file_token_strings_length _ _ _ _ He). done.
Qed.

(** Conversely, the loop goes through only when they are all new. *)
Lemma register_files_hf_inv (args : Args) (files : list string)
    (embs : list (list V * list V)) (st st' : ti_state) :
  Forall2 (λ f e, file_embeds is_safetensors load_file torch_load f = Ok e) files embs ->
  Forall (λ e, e.1 ≠ []) embs ->
  register_files is_safetensors load_file torch_load path_stem args st files = Ok st' ->
  fresh_all (vocab (tokenizers st).1) (all_token_strings path_stem args files embs)
  ∧ fresh_all (vocab (tokenizers st).2) (all_token_strings path_stem args files embs).
Proof.
  intros Hfiles. revert st.
  induction Hfiles as [|f [e1 e2] files embs Hfe Hfiles IH]; intros st Hne Hrun.
  - unfold all_token_strings. simpl. split; split; constructor.
  - inversion Hne as [|? ? He Hne']; subst. simpl in He.
    rewrite !all_token_strings_cons. cbn [fst].
    simpl in Hrun.
    destruct (fresh_all_dec (vocab (tokenizers st).1)
                (file_token_strings path_stem args f e1)) as [Hf1|Hf1].
    2: { rewrite (register_file_hf_conflict _ _ _ _ _ _ _ e1 e2 Hfe He) in Hrun;
           [done | by intros [? ?]]. }
    destruct (fresh_all_dec (vocab (tokenizers st).2)
                (file_token_strings path_stem args f e1)) as [Hf2|Hf2].
    2: { rewrite (register_file_hf_conflict _ _ _ _ _ _ _ e1 e2 Hfe He) in Hrun;
           [done | by intros [? ?]]. }
    rewrite (register_file_hf_fresh _ _ _ _ _ _ _ e1 e2 Hfe He Hf1 Hf2) in Hrun.
    cbn [mbind res_bind] in Hrun.
    destruct (IH _ Hne' Hrun) as [Hr1 Hr2]. simpl in Hr1, Hr2.
    split; apply fresh_all_app; by split.
Qed.
End HfLoadFacts.

Section HfLoadRun.
Context {V : Type}.
Variable is_safetensors : string -> bool.
Variable load_file : string -> res (file_data (V := V)).
Variable torch_load : string -> res (file_data (V := V)).
Variable path_stem : string -> string.
Variable fresh_row : nat -> nat -> V.

(** The tables after a load of files that are all new to both tokenizers:
    the old rows, the rows created up to the old vocabulary size, then the
    blocks of the files. *)
Lemma load_hf_fresh (args : Args) (embs : list (list V * list V))
    (toks : hf_tokenizer * hf_tokenizer)
    (encs : text_encoder (V := V) * text_encoder (V := V)) :
  textual_inversion_embeddings args ≠ [] ->
  Forall2 (λ f e, file_embeds is_safetensors load_file torch_load f = Ok e)
    (textual_inversion_embeddings args) embs ->
  Forall (λ e, e.1 ≠ []) embs ->
  (length (input_embeddings encs.1) ≤ length (vocab toks.1))%nat ->
  (length (input_embeddings encs.2) ≤ length (vocab toks.2))%nat ->
  let sss := all_token_strings path_stem args (textual_inversion_embeddings args) embs in
  fresh_all (vocab toks.1) sss -> fresh_all (vocab toks.2) sss ->
  let table e (enc : text_encoder (V := V)) (v : list string) blocks :=
    input_embeddings enc
    ++ (fresh_row e <$> seq (length (input_embeddings enc))
                          (length v - length (input_embeddings enc)))
    ++ fill (fresh_row e <$> seq (length v) (length sss)) blocks in
  load_textual_inversion is_safetensors load_file torch_load path_stem fresh_row
    args toks encs
  = Ok ((HfTokenizer (vocab toks.1 ++ sss) (unk_token_id toks.1),
         HfTokenizer (vocab toks.2 ++ sss) (unk_token_id toks.2)),
        (TextEncoder (te_module encs.1) (table 0%nat encs.1 (vocab toks.1) (blocks1 embs)),
         TextEncoder (te_module encs.2) (table 1%nat encs.2 (vocab toks.2) (blocks2 embs)))).
Proof.
  intros Hne Hfiles Hemb Hold1 Hold2 sss Hf1 Hf2 table.
  assert (HK : length sss = sum_list ((blocks1 embs).*1)).
  { apply all_token_strings_length; [by eapply Forall2_length | done]. }
  unfold load_textual_inversion.
  destruct (textual_inversion_embeddings args) as [|f files] eqn:Hargs; [done|].
  rewrite (register_files_hf_fresh is_safetensors load_file torch_load path_stem
             args (f :: files) embs (TiState toks [] []) Hfiles Hemb Hf1 Hf2).
  cbn [mbind res_bind tokenizers token_ids_embeds1 token_ids_embeds2 fst snd app].
  fold sss.
  unfold resize_token_embeddings.
  cbn [tok_len hf_tokenizer_ops vocab].
  rewrite !decide_False by lia. rewrite !Nat2Z.id, !length_app.
  cbn [mbind res_bind input_embeddings te_module].
  destruct (resized_split (fresh_row 0) (input_embeddings encs.1)
              (length (vocab toks.1)) (length sss) Hold1) as (Hw1 & Ht1 & Hd1).
  destruct (resized_split (fresh_row 1) (input_embeddings encs.2)
              (length (vocab toks.2)) (length sss) Hold2) as (Hw2 & Ht2 & Hd2).
  cbn zeta in Hw1, Ht1, Hd1, Hw2, Ht2, Hd2.
  assert (Hfit1 : (length (vocab toks.1) + sum_list ((blocks1 embs).*1)
                   ≤ length (take (length (vocab toks.1) + length sss)
                                  (input_embeddings encs.1)
                             ++ (fresh_row 0 <$>
                                   seq (length (input_embeddings encs.1))
                                       (length (vocab toks.1) + length sss
                                        - length (input_embeddings encs.1)))))%nat)
    by (rewrite Hw1; lia).
  assert (Hfit2 : (length (vocab toks.2) + sum_list ((blocks2 embs).*1)
                   ≤ length (take (length (vocab toks.2) + length sss)
                                  (input_embeddings encs.2)
                             ++ (fresh_row 1 <$>
                                   seq (length (input_embeddings encs.2))
                                       (length (vocab toks.2) + length sss
                                        - length (input_embeddings encs.2)))))%nat)
    by (rewrite Hw2, <- blocks1_sizes; lia).
  rewrite (assign_all_segs _ _ _ Hfit1). cbn [mbind res_bind].
  rewrite (assign_all_segs _ _ _ Hfit2). cbn [mbind res_bind mret res_ret].
  rewrite Ht1, Hd1, Ht2, Hd2. unfold table. by rewrite <- !app_assoc.
Qed.
End HfLoadRun.

Section HfLoadTheorems.
Context {V : Type}.
Variable is_safetensors : string -> bool.
Variable load_file : string -> res (file_data (V := V)).
Variable torch_load : string -> res (file_data (V := V)).
Variable path_stem : string -> string.
Variable fresh_row : nat -> nat -> V.

Lemma blocks1_tensors (embs : list (list V * list V)) : (blocks1 embs).*2 = embs.*1.
Proof. unfold blocks1. rewrite <- list_fmap_compose. by apply list_fmap_ext. Qed.

Lemma blocks2_tensors (embs : list (list V * list V)) : (blocks2 embs).*2 = embs.*2.
Proof. unfold blocks2. rewrite <- list_fmap_compose. by apply list_fmap_ext. Qed.

(** A load that succeeded found every string new. *)
Lemma load_hf_ok_fresh (args : Args) (embs : list (list V * list V))
    (toks : hf_tokenizer * hf_tokenizer)
    (encs : text_encoder (V := V) * text_encoder (V := V))
    (r : (hf_tokenizer * hf_tokenizer)
         * (text_encoder (V := V) * text_encoder (V := V))) :
  load_textual_inversion is_safetensors load_file torch_load path_stem fresh_row
    args toks encs = Ok r ->
  textual_inversion_embeddings args ≠ [] ->
  Forall2 (λ f e, file_embeds is_safetensors load_file torch_load f = Ok e)
    (textual_inversion_embeddings args) embs ->
  Forall (λ e, e.1 ≠ []) embs ->
  fresh_all (vocab toks.1)
    (all_token_strings path_stem args (textual_inversion_embeddings args) embs)
  ∧ fresh_all (vocab toks.2)
      (all_token_strings path_stem args (textual_inversion_embeddings args) embs).
Proof.
  intros Hrun Hne Hfiles Hemb. unfold load_textual_inversion in Hrun.
  destruct (textual_inversion_embeddings args) as [|f files] eqn:Hargs; [done|].
  bind_ok Hrun.
  match goal with
  | H : register_files _ _ _ _ _ _ _ = Ok _ |- _ =>
      apply (register_files_hf_inv _ _ _ _ _ _ _ _ _ Hfiles Hemb H)
  end.
Qed.

End HfLoadTheorems.



Section MismatchFacts.
Context {V : Type}.
Variable is_safetensors : string -> bool.
Variable load_file : string -> res (file_data (V := V)).
Variable torch_load : string -> res (file_data (V := V)).
Variable path_stem : string -> string.
Variable fresh_row : nat -> nat -> V.

Lemma rows_before_fits (embs : list (list V * list V)) (j : nat) (e : list V * list V) :
  embs !! j = Some e ->
  (rows_before j embs + length e.1 ≤ sum_list ((blocks1 embs).*1))%nat.
Proof.
  revert j. induction embs as [|e0 embs IH]; intros j Hj; [done|].
  destruct j as [|j].
  - injection Hj as ->. unfold rows_before. simpl. lia.
  - specialize (IH j Hj). unfold rows_before in *.
    change (sum_list ((blocks1 (take (S j) (e0 :: embs))).*1))
      with (length e0.1 + sum_list ((blocks1 (take j embs)).*1))%nat.
    change (sum_list ((blocks1 (e0 :: embs)).*1))
      with (length e0.1 + sum_list ((blocks1 embs).*1))%nat.
    lia.
Qed.

(** C10: on the trainer's tokenizers, over files with at least one vector
    for encoder 1 whose strings are all new, the load succeeds whatever the
    number of rows of the tensors for encoder 2. Each file gets as many ids
    as its tensor for encoder 1 has rows. In the block of a file in the table
    of encoder 2, the first rows are the rows of its tensor for encoder 2,
    as many as fit; when that tensor is shorter the other rows of the block
    are as the resize created them, when it is longer its other rows are
    not used. *)
Theorem second_tensor_rows_are_not_checked (args : Args)
    (embs : list (list V * list V)) (toks : hf_tokenizer * hf_tokenizer)
    (encs : text_encoder (V := V) * text_encoder (V := V)) :
  textual_inversion_embeddings args ≠ [] ->
  Forall2 (λ f e, file_embeds is_safetensors load_file torch_load f = Ok e)
    (textual_inversion_embeddings args) embs ->
  Forall (λ e, e.1 ≠ []) embs ->
  (length (input_embeddings encs.1) ≤ length (vocab toks.1))%nat ->
  (length (input_embeddings encs.2) ≤ length (vocab toks.2))%nat ->
  let sss := all_token_strings path_stem args (textual_inversion_embeddings args) embs in
  fresh_all (vocab toks.1) sss -> fresh_all (vocab toks.2) sss ->
  ∃ toks' encs',
    load_textual_inversion is_safetensors load_file torch_load path_stem fresh_row
      args toks encs = Ok (toks', encs')
    ∧ vocab toks'.1 = vocab toks.1 ++ sss
    ∧ vocab toks'.2 = vocab toks.2 ++ sss
    ∧ length sss = length (concat (embs.*1))
    ∧ length (input_embeddings encs'.2) = (length (vocab toks.2) + length sss)%nat
    ∧ ∀ j e1 e2, embs !! j = Some (e1, e2) ->
        let o := (length (vocab toks.2) + rows_before j embs)%nat in
        take (length e1) (drop o (input_embeddings encs'.2))
        = take (length e1) e2
          ++ (fresh_row 1 <$> seq (o + length e2) (length e1 - length e2)).
Proof.
  intros Hne Hfiles Hemb Hold1 Hold2 sss Hf1 Hf2.
  eexists _, _. split.
  { apply (load_hf_fresh is_safetensors load_file torch_load path_stem fresh_row
             args embs toks encs Hne Hfiles Hemb Hold1 Hold2 Hf1 Hf2). }
  fold sss. cbn [fst snd vocab input_embeddings].
  assert (HK : length sss = sum_list ((blocks1 embs).*1)).
  { apply all_token_strings_length; [by eapply Forall2_length | done]. }
  assert (Htail : length (fresh_row 1 <$> seq (length (vocab toks.2)) (length sss))
                  = length sss) by (by rewrite length_fmap, length_seq).
  assert (Hfit : (sum_list ((blocks2 embs).*1)
                  ≤ length (fresh_row 1 <$> seq (length (vocab toks.2)) (length sss)))%nat)
    by (rewrite Htail, <- blocks1_sizes; lia).
  split; [done|]. split; [done|]. split; [|split].
  - rewrite <- (blocks1_tensors embs).
    rewrite <- (fill_exact (fresh_row 0 <$> seq 0 (length sss)) (blocks1 embs)).
    + rewrite fill_length; rewrite length_fmap, length_seq; lia.
    + unfold blocks1. apply Forall_fmap, Forall_forall. by intros e _.
    + by rewrite length_fmap, length_seq.
  - rewrite !length_app, length_fmap, length_seq, fill_length by done.
    rewrite Htail. lia.
  - intros j e1 e2 Hj. set (o := (length (vocab toks.2) + rows_before j embs)%nat).
    assert (Hjb : blocks2 embs !! j = Some (length e1, e2)).
    { unfold blocks2. by rewrite list_lookup_fmap, Hj. }
    pose proof (rows_before_fits embs j (e1, e2) Hj) as Hrb. simpl in Hrb.
    pose proof (fill_block _ _ j _ _ Hjb Hfit) as Hblock. cbn zeta in Hblock.
    assert (Ho : sum_list ((take j (blocks2 embs)).*1) = rows_before j embs).
    { unfold rows_before, blocks1, blocks2.
      rewrite <- !fmap_take, <- !list_fmap_compose. done. }
    rewrite Ho in Hblock.
    rewrite app_assoc. unfold o.
    rewrite drop_app_add' by (rewrite length_app, length_fmap, length_seq; lia).
    rewrite Hblock. f_equal.
    rewrite <- fmap_drop, <- fmap_take, drop_seq, take_seq. f_equal.
    destruct (decide (length e1 ≤ length e2)%nat).
    + replace (length e1 - length e2)%nat with 0%nat by lia. done.
    + f_equal; lia.
Qed.
End MismatchFacts.

(** C10, witness: "short" (two vectors for encoder 1, one for encoder 2)
    then "long" (one vector for encoder 1, two for encoder 2). The second
    row of the block of "short" is the row the resize created (204), and
    the second row of "long" is not used. *)
Lemma second_tensor_rows_are_not_checked_witness :
  ∃ toks' encs',
    load_textual_inversion always_safetensors disk disk stem_is_path numbered_row
      (args_ti ["short"; "long"]) (clip_tokenizer, clip_tokenizer)
      (clip_encoder, clip_encoder) = Ok (toks', encs')
    ∧ vocab toks'.2 = ["<unk>"; "a"; "b"; "short"; "short1"; "long"]
    ∧ take 2 (drop 3 (input_embeddings encs'.2)) = [40; 204]
    ∧ take 1 (drop 5 (input_embeddings encs'.2)) = [60].
Proof.
  destruct (second_tensor_rows_are_not_checked always_safetensors disk disk
              stem_is_path numbered_row (args_ti ["short"; "long"])
              [([30; 31], [40]); ([50], [60; 61])]
              (clip_tokenizer, clip_tokenizer) (clip_encoder, clip_encoder)
              ltac:(discriminate)
              ltac:(repeat (constructor; [vm_compute; reflexivity|]); constructor)
              ltac:(repeat constructor; discriminate)
              ltac:(simpl; lia) ltac:(simpl; lia)
              ltac:(unfold fresh_all; apply (bool_decide_unpack _); vm_compute; exact I)
              ltac:(unfold fresh_all; apply (bool_decide_unpack _); vm_compute; exact I))
    as (toks' & encs' & Hrun & _ & Hv2 & _ & _ & Hblock).
  exists toks', encs'. split; [exact Hrun|]. split; [exact Hv2|]. split.
  - exact (Hblock 0%nat [30; 31] [40] eq_refl).
  - exact (Hblock 1%nat [50] [60; 61] eq_refl).
Defined.

(** * Further properties *)

(** ** Start-up checks and priming together *)

Section SetupFacts.
Context {D Tok : Type} {dsg : DatasetGroup D Tok}.
Variable super_assert_extra_args : Args -> D -> res unit.
Variable verify_sdxl_training_args : Args -> res unit.
Variable cuda_is_available : bool.

(** X1: [assert_extra_args] passes exactly when the checks of the base
    trainer and of the SDXL arguments pass, caching is either not selected
    or selected over a cacheable dataset with a network that trains the
    denoiser only, and the bucket resolution steps are a multiple of 32. *)
Theorem assert_extra_args_passes_iff (args : Args) (ds : D) :
  snd (assert_extra_args super_assert_extra_args verify_sdxl_training_args args ds)
  = Ok tt
  ↔ super_assert_extra_args args ds = Ok tt
    ∧ verify_sdxl_training_args args = Ok tt
    ∧ (cache_text_encoder_outputs args = true ->
       is_text_encoder_output_cacheable ds = true
       ∧ network_train_unet_only args = true)
    ∧ verify_bucket_reso_steps ds 32 = Ok tt.
Proof.
  unfold assert_extra_args.
  destruct (super_assert_extra_args args ds) as [[]|e1]; simpl;
    [|split; [discriminate | by intros [? _]]].
  destruct (verify_sdxl_training_args args) as [[]|e2]; simpl;
    [|split; [discriminate | by intros (_ & ? & _)]].
  destruct (cache_text_encoder_outputs args); simpl.
  - destruct (is_text_encoder_output_cacheable ds); simpl.
    + destruct (network_train_unet_only args); simpl.
      * destruct (verify_bucket_reso_steps ds 32) as [[]|e3]; simpl.
        -- split; [by intros _|done].
        -- split; [discriminate | by intros (_ & _ & _ & ?)].
      * split; [discriminate|]. intros (_ & _ & Hc & _). by destruct Hc.
    + split; [discriminate|]. intros (_ & _ & Hc & _). by destruct Hc.
  - rewrite orb_true_r. simpl.
    destruct (verify_bucket_reso_steps ds 32) as [[]|e3]; simpl.
    + split; [by intros _|done].
    + split; [discriminate | by intros (_ & _ & _ & ?)].
Qed.

(** X3: the caching pass of the dataset is called by the priming routine
    exactly when [is_text_encoder_outputs_cached] answers true; no other
    event of the routine runs a text encoder. *)
Theorem caching_pass_runs_iff_cached (args : Args) (acc : accelerator)
    (st : models) (toks : Tok * Tok) (w : dtype) :
  Exists (λ ev, encoder_event ev = true)
    (fst (cache_text_encoder_outputs_if_needed cuda_is_available args acc st toks w))
  ↔ is_text_encoder_outputs_cached args = true.
Proof.
  unfold is_text_encoder_outputs_cached, cache_text_encoder_outputs_if_needed, empty_cache.
  destruct st as [u v tes ds]. destruct (cache_text_encoder_outputs args).
  - split; [done|]. intros _.
    destruct (lowram args); simpl;
      destruct (ds_cache_text_encoder_outputs _ _ _ _ _ _ _) as [[ds1 [te1 te2]]|e];
      simpl; destruct cuda_is_available; simpl;
      repeat (first [ by apply Exists_cons_hd | apply Exists_cons_tl ]).
  - split; [|done]. simpl. intros H.
    repeat (apply Exists_cons in H as [H|H]; [discriminate H|]).
    by apply Exists_nil in H.
Qed.

(** X2: when [assert_extra_args] has passed for the dataset that is then
    primed, the caching pass is only ever called on a cacheable dataset and
    with a network that trains the denoiser only. *)
Theorem caching_pass_only_after_checks (args : Args) (acc : accelerator)
    (st : models) (toks : Tok * Tok) (w : dtype) :
  snd (assert_extra_args super_assert_extra_args verify_sdxl_training_args args
         (dataset st)) = Ok tt ->
  Exists (λ ev, encoder_event ev = true)
    (fst (cache_text_encoder_outputs_if_needed cuda_is_available args acc st toks w)) ->
  is_text_encoder_output_cacheable (dataset st) = true
  ∧ network_train_unet_only args = true.
Proof.
  intros Hsetup Hev.
  assert (Hc : cache_text_encoder_outputs args = true).
  { unfold cache_text_encoder_outputs_if_needed in Hev. destruct st as [u v tes ds].
    destruct (cache_text_encoder_outputs args); [done|]. simpl in Hev.
    repeat (apply Exists_cons in Hev as [Hev|Hev]; [discriminate Hev|]).
    by apply Exists_nil in Hev. }
  unfold assert_extra_args in Hsetup. rewrite Hc in Hsetup.
  destruct (super_assert_extra_args args (dataset st)) as [[]|]; [|done].
  destruct (verify_sdxl_training_args args) as [[]|]; [|done]. simpl in Hsetup.
  destruct (is_text_encoder_output_cacheable (dataset st)); [|done].
  by destruct (network_train_unet_only args).
Qed.
End SetupFacts.

(** X2, witness: caching selected over the dataset [moving_dataset]. *)
Lemma caching_pass_only_after_checks_witness :
  is_text_encoder_output_cacheable (DatasetGroup := moving_dataset) tt = true
  ∧ network_train_unet_only (args_cached false) = true.
Proof.
  apply (caching_pass_only_after_checks (dsg := moving_dataset) super_passes
           verify_passes true (args_cached false) gpu_accelerator models_mixed
           (tt, tt) Float16).
  - reflexivity.
  - simpl. repeat (first [ by apply Exists_cons_hd | apply Exists_cons_tl ]).
Defined.

(** ** More on the priming routine *)

Section PrimingMore.
Context {D Tok : Type} {dsg : DatasetGroup D Tok}.
Variable cuda_is_available : bool.

(** X4: in either mode, when the routine returns, the codec and the
    denoiser are exactly as they were (residency and precision); when
    caching is not selected both text encoders are on the compute device in
    the precision they had, and the dataset is untouched. *)
Theorem priming_frame (args : Args) (acc : accelerator) (st st' : models)
    (toks : Tok * Tok) (w : dtype) :
  snd (cache_text_encoder_outputs_if_needed cuda_is_available args acc st toks w)
  = Ok st' ->
  vae st' = vae st ∧ unet st' = unet st
  ∧ (cache_text_encoder_outputs args = false ->
     text_encoders st'
     = (Module_ (acc_device acc) (m_dtype (text_encoders st).1),
        Module_ (acc_device acc) (m_dtype (text_encoders st).2))
     ∧ dataset st' = dataset st).
Proof.
  intros Hrun. destruct (cache_text_encoder_outputs args) eqn:Hc.
  - destruct (ds_cache_text_encoder_outputs (dataset st) toks (text_encoders st)
                (acc_device acc) w (cache_text_encoder_outputs_to_disk args)
                (is_main_process acc)) as [[ds' tes']|e] eqn:Hds.
    + rewrite (priming_cached_run cuda_is_available _ _ _ _ _ _ _ Hc Hds) in Hrun.
      simpl in Hrun. injection Hrun as <-. by simpl.
    + exfalso. destruct st as [u v tes ds]. simpl in Hds.
      unfold cache_text_encoder_outputs_if_needed, empty_cache in Hrun.
      rewrite Hc in Hrun.
      destruct (lowram args); simpl in Hrun; rewrite Hds in Hrun;
        destruct cuda_is_available; simpl in Hrun; discriminate.
  - destruct st as [u v [te1 te2] ds].
    unfold cache_text_encoder_outputs_if_needed in Hrun. rewrite Hc in Hrun.
    simpl in Hrun. injection Hrun as <-. by simpl.
Qed.

(** X5: the routine never reads a device it did not record. Lines 146-147
    read [org_vae_device] and [org_unet_device] under the test of line 144,
    the test under which lines 121-122 bound them, so the routine does not
    end with an UnboundLocalError unless the dataset's caching pass raised
    one itself. *)
Theorem restore_reads_recorded_devices (args : Args) (acc : accelerator)
    (st : models) (toks : Tok * Tok) (w : dtype) :
  ds_cache_text_encoder_outputs (dataset st) toks (text_encoders st)
    (acc_device acc) w (cache_text_encoder_outputs_to_disk args)
    (is_main_process acc) ≠ Raise UnboundLocalError ->
  snd (cache_text_encoder_outputs_if_needed cuda_is_available args acc st toks w)
  ≠ Raise UnboundLocalError.
Proof.
  intros Hds Hrun. destruct st as [u v tes ds]. simpl in Hds.
  unfold cache_text_encoder_outputs_if_needed, empty_cache in Hrun.
  destruct (cache_text_encoder_outputs args); [|discriminate Hrun].
  destruct (ds_cache_text_encoder_outputs ds toks tes (acc_device acc) w
              (cache_text_encoder_outputs_to_disk args) (is_main_process acc))
    as [[ds1 [te1 te2]]|e].
  - destruct (lowram args); simpl in Hrun;
      destruct cuda_is_available; simpl in Hrun; discriminate Hrun.
  - apply Hds. f_equal.
    destruct (lowram args); simpl in Hrun;
      destruct cuda_is_available; simpl in Hrun; by injection Hrun.
Qed.

(** X6: when the caching pass raises after the codec and the denoiser were
    moved to the CPU (no [lowram]), the routine stops there: the exception
    goes up, the text encoders are not demoted and nothing moves the codec
    and the denoiser back. *)
Theorem priming_failure_is_not_undone (args : Args) (acc : accelerator)
    (st : models) (toks : Tok * Tok) (w : dtype) (e : exn) :
  cache_text_encoder_outputs args = true ->
  lowram args = false ->
  ds_cache_text_encoder_outputs (dataset st) toks (text_encoders st)
    (acc_device acc) w (cache_text_encoder_outputs_to_disk args)
    (is_main_process acc) = Raise e ->
  cache_text_encoder_outputs_if_needed cuda_is_available args acc st toks w
  = ([EvPrint "move vae and unet to cpu to save memory";
      EvTo Vae Cpu None; EvTo Unet Cpu None]
     ++ (if cuda_is_available then [EvEmptyCache] else [])
     ++ [EvCacheTextEncoderOutputs (acc_device acc) w
           (cache_text_encoder_outputs_to_disk args) (is_main_process acc)],
     Raise e).
Proof.
  intros Hc Hlow Hds. destruct st as [u v tes ds]. simpl in Hds.
  unfold cache_text_encoder_outputs_if_needed, empty_cache. rewrite Hc, Hlow.
  simpl. rewrite Hds. by destruct cuda_is_available.
Qed.
End PrimingMore.

(** X4, witness: a run without caching moves the encoders of
    [models_mixed] to device 0 and keeps their float16. *)
Lemma priming_frame_witness :
  ∃ st', snd (cache_text_encoder_outputs_if_needed (dsg := moving_dataset) false
                args_live gpu_accelerator models_mixed (tt, tt) BFloat16) = Ok st'
         ∧ vae st' = vae models_mixed
         ∧ text_encoders st' = (Module_ (Accel 0) Float16, Module_ (Accel 0) Float16).
Proof.
  eexists. split; [reflexivity|].
  destruct (priming_frame (dsg := moving_dataset) false args_live gpu_accelerator
              models_mixed _ (tt, tt) BFloat16 eq_refl) as (Hv & _ & Hlive).
  split; [exact Hv|]. exact (proj1 (Hlive eq_refl)).
Defined.

(** X5, witness: a run that relocates the codec and the denoiser and puts
    them back. *)
Lemma restore_reads_recorded_devices_witness :
  snd (cache_text_encoder_outputs_if_needed (dsg := moving_dataset) true
         (args_cached false) gpu_accelerator models_mixed (tt, tt) Float16)
  ≠ Raise UnboundLocalError.
Proof.
  apply (restore_reads_recorded_devices (dsg := moving_dataset) true
           (args_cached false) gpu_accelerator models_mixed (tt, tt) Float16).
  simpl. discriminate.
Defined.

(** X6, witness: the caching pass fails with the codec on device 1. *)
Lemma priming_failure_is_not_undone_witness :
  cache_text_encoder_outputs_if_needed (dsg := failing_dataset) false
    (args_cached false) gpu_accelerator models_mixed (tt, tt) Float16
  = ([EvPrint "move vae and unet to cpu to save memory";
      EvTo Vae Cpu None; EvTo Unet Cpu None;
      EvCacheTextEncoderOutputs (Accel 0) Float16 false true],
     Raise (ExternalError "encode")).
Proof.
  exact (priming_failure_is_not_undone (dsg := failing_dataset) false
           (args_cached false) gpu_accelerator models_mixed (tt, tt) Float16
           (ExternalError "encode") eq_refl eq_refl eq_refl).
Defined.

(** ** More on the conditioning assembler *)

Section AssemblerMore.
Context {A : Type} {Tok Enc : Type}.
Variable cast : dtype -> dtype -> A -> A.
Variable get_hidden_states_sdxl :
  option Z -> tensor (A := A) -> tensor (A := A) -> Tok -> Tok -> Enc -> Enc ->
  option dtype -> res (tensor (A := A) * tensor (A := A) * tensor (A := A)).

(** X7: once the first precomputed field holds a tensor the other two are
    required: the first of them that is missing gives a KeyError with its
    name, one that is None gives an AttributeError, and in no case is a text
    encoder run instead. *)
Theorem cached_path_needs_all_fields (args : Args) (acc : accelerator)
    (batch : gmap string pyval) (toks : Tok * Tok) (tes : Enc * Enc) (w : dtype)
    (t1 : tensor) :
  batch !! "text_encoder_outputs1_list" = Some (PyTensor t1) ->
  let r := get_text_cond cast get_hidden_states_sdxl args acc batch toks tes w in
  let mv t := to_dtype cast w (to_device (acc_device acc) t) in
  fst r = []
  ∧ snd r = match batch !! "text_encoder_outputs2_list" with
            | None => Raise (KeyError "text_encoder_outputs2_list")
            | Some PyNone => Raise AttributeError
            | Some (PyTensor t2) =>
                match batch !! "text_encoder_pool2_list" with
                | None => Raise (KeyError "text_encoder_pool2_list")
                | Some PyNone => Raise AttributeError
                | Some (PyTensor t3) => Ok (mv t1, mv t2, mv t3)
                end
            end.
Proof.
  intros H1. cbn zeta. unfold get_text_cond, absent_or_none, py_getitem. rewrite H1.
  destruct (batch !! "text_encoder_outputs2_list") as [[|t2]|]; simpl; try done.
  by destruct (batch !! "text_encoder_pool2_list") as [[|t3]|].
Qed.

(** X8: when the first precomputed field is missing or None, the text
    encoders are run exactly when both token-id fields hold tensors; a
    missing token-id field gives a KeyError with its name ("input_ids"
    first), a field that is None an AttributeError. *)
Theorem live_path_needs_input_ids (args : Args) (acc : accelerator)
    (batch : gmap string pyval) (toks : Tok * Tok) (tes : Enc * Enc) (w : dtype) :
  absent_or_none batch "text_encoder_outputs1_list" = true ->
  let r := get_text_cond cast get_hidden_states_sdxl args acc batch toks tes w in
  (EvGetHiddenStates ∈ fst r
   ↔ ∃ i1 i2, batch !! "input_ids" = Some (PyTensor i1)
              ∧ batch !! "input_ids2" = Some (PyTensor i2))
  ∧ (batch !! "input_ids" = None -> r = ([], Raise (KeyError "input_ids")))
  ∧ (is_Some (batch !! "input_ids") -> batch !! "input_ids2" = None ->
     r = ([], Raise (KeyError "input_ids2")))
  ∧ (is_Some (batch !! "input_ids") -> is_Some (batch !! "input_ids2") ->
     batch !! "input_ids" = Some PyNone ∨ batch !! "input_ids2" = Some PyNone ->
     r = ([], Raise AttributeError)).
Proof.
  intros Ha. cbn zeta. rewrite (get_text_cond_live _ _ _ _ _ _ _ _ Ha).
  destruct (batch !! "input_ids") as [[|i1]|];
    destruct (batch !! "input_ids2") as [[|i2]|]; simpl.
  all: split; [split; [intros Hin | intros (? & ? & ? & ?)]|].
  all: try (by apply elem_of_nil in Hin).
  all: try discriminate.
  all: try (by eauto).
  all: try (apply elem_of_cons; by left).
  all: repeat split; try done.
  all: try (by intros [? ?]).
  all: try (by intros _ _ [?|?]).
  all: try (by intros [? ?] _).
  all: try (by intros _ [? ?]).
Qed.

(** X9: tensors that are already on the compute device in the training
    precision are handed over as they are. *)
Theorem cached_tensors_in_place_are_untouched (args : Args) (acc : accelerator)
    (batch : gmap string pyval) (toks : Tok * Tok) (tes : Enc * Enc) (w : dtype)
    (t1 t2 t3 : tensor) :
  batch !! "text_encoder_outputs1_list" = Some (PyTensor t1) ->
  batch !! "text_encoder_outputs2_list" = Some (PyTensor t2) ->
  batch !! "text_encoder_pool2_list" = Some (PyTensor t3) ->
  Forall (λ t, t_device t = acc_device acc ∧ t_dtype t = w) [t1; t2; t3] ->
  get_text_cond cast get_hidden_states_sdxl args acc batch toks tes w
  = ([], Ok (t1, t2, t3)).
Proof.
  intros H1 H2 H3 Hall. rewrite (get_text_cond_cached _ _ _ _ _ _ _ _ _ _ _ H1 H2 H3).
  assert (Hid : ∀ t : tensor (A := A),
            t_device t = acc_device acc ∧ t_dtype t = w ->
            to_dtype cast w (to_device (acc_device acc) t) = t).
  { intros [d dt sh da] [Hd Hw]. simpl in *. subst.
    unfold to_dtype, to_device. simpl. by rewrite decide_True. }
  inversion Hall as [|? ? Ht1 Hall2]; subst.
  inversion Hall2 as [|? ? Ht2 Hall3]; subst.
  inversion Hall3 as [|? ? Ht3 _]; subst.
  by rewrite (Hid _ Ht1), (Hid _ Ht2), (Hid _ Ht3).
Qed.
End AssemblerMore.

(** X7, witness: a batch with the first precomputed field alone. *)
Lemma cached_path_needs_all_fields_witness :
  get_text_cond keep failing_encoders (args_cached false) gpu_accelerator
    partial_batch (tt, tt) (tt, tt) Float16
  = ([], Raise (KeyError "text_encoder_outputs2_list")).
Proof.
  destruct (cached_path_needs_all_fields keep failing_encoders (args_cached false)
              gpu_accelerator partial_batch (tt, tt) (tt, tt) Float16 hidden1 eq_refl)
    as [Htr Hres].
  destruct (get_text_cond _ _ _ _ _ _ _ _) as [tr r]. simpl in Htr, Hres.
  by rewrite Htr, Hres.
Defined.

(** X8, witness: an empty batch. *)
Lemma live_path_needs_input_ids_witness :
  get_text_cond (A := Z) keep failing_encoders args_live gpu_accelerator
    ∅ (tt, tt) (tt, tt) Float16
  = ([], Raise (KeyError "input_ids")).
Proof.
  destruct (live_path_needs_input_ids keep failing_encoders args_live
              gpu_accelerator (∅ : gmap string (pyval (A := Z))) (tt, tt) (tt, tt)
              Float16 ltac:(unfold absent_or_none; by rewrite lookup_empty))
    as (_ & Hmissing & _).
  apply Hmissing. apply lookup_empty.
Defined.

(** X9, witness: float32 tensors on the CPU, for a float32 run on the
    CPU. *)
Lemma cached_tensors_in_place_are_untouched_witness :
  get_text_cond keep failing_encoders (args_cached false) cpu_accelerator
    cached_batch (tt, tt) (tt, tt) Float32
  = ([], Ok (hidden1, hidden2, pooled)).
Proof.
  apply (cached_tensors_in_place_are_untouched keep failing_encoders
           (args_cached false) cpu_accelerator cached_batch (tt, tt) (tt, tt)
           Float32 hidden1 hidden2 pooled eq_refl eq_refl eq_refl).
  repeat constructor.
Defined.

(** ** More on the denoising invoker *)

Section CallUnetMore.
Context {A : Type} {Tok Enc : Type}.
Variable cast : dtype -> dtype -> A -> A.
Variable get_hidden_states_sdxl :
  option Z -> tensor (A := A) -> tensor (A := A) -> Tok -> Tok -> Enc -> Enc ->
  option dtype -> res (tensor (A := A) * tensor (A := A) * tensor (A := A)).
Variable get_size_embeddings :
  pyval (A := A) -> pyval (A := A) -> pyval (A := A) -> device -> res (tensor (A := A)).
Variable unet_forward :
  tensor (A := A) -> tensor (A := A) -> tensor (A := A) -> tensor (A := A) ->
  res (tensor (A := A)).

(** The events of [call_unet]: the size embedding, then at most the
    forward pass. *)
Lemma call_unet_trace (acc : accelerator) (noisy_latents ts : tensor)
    (conds : tensor * tensor * tensor) (batch : gmap string pyval) (w : dtype) :
  fst (call_unet cast get_size_embeddings unet_forward acc noisy_latents ts conds
         batch w)
  ∈ [[]; [EvGetSizeEmbeddings]; [EvGetSizeEmbeddings; EvUnetForward]].
Proof.
  unfold call_unet, py_getitem. destruct conds as [[h1 h2] pool2].
  destruct (batch !! "original_sizes_hw"); simpl; [|apply elem_of_cons; by left].
  destruct (batch !! "crop_top_lefts"); simpl; [|apply elem_of_cons; by left].
  destruct (batch !! "target_sizes_hw"); simpl; [|apply elem_of_cons; by left].
  destruct (get_size_embeddings _ _ _ _); simpl;
    [|apply elem_of_cons; right; apply elem_of_cons; by left].
  destruct (torch_cat cast 1 _ _); simpl;
    [|apply elem_of_cons; right; apply elem_of_cons; by left].
  destruct (torch_cat cast 2 _ _); simpl;
    [|apply elem_of_cons; right; apply elem_of_cons; by left].
  destruct (unet_forward _ _ _ _); simpl;
    do 2 (apply elem_of_cons; right); apply elem_of_cons; by left.
Qed.

(** X10: the denoiser is called exactly when the three geometry fields are
    in the batch, the size embedding is computed and both concatenations go
    through, which includes operands of shape (0,), left out by
    [torch.cat]; a failure of any of these steps ends the call before the
    forward pass. *)
Theorem denoiser_called_iff (acc : accelerator) (noisy_latents ts h1 h2 pool2 : tensor)
    (batch : gmap string pyval) (w : dtype) :
  EvUnetForward
  ∈ fst (call_unet cast get_size_embeddings unet_forward acc noisy_latents ts
           (h1, h2, pool2) batch w)
  ↔ ∃ orig crop target embs v t,
      batch !! "original_sizes_hw" = Some orig
      ∧ batch !! "crop_top_lefts" = Some crop
      ∧ batch !! "target_sizes_hw" = Some target
      ∧ get_size_embeddings orig crop target (acc_device acc) = Ok embs
      ∧ torch_cat cast 1 pool2 (to_dtype cast w embs) = Ok v
      ∧ torch_cat cast 2 h1 h2 = Ok t.
Proof.
  unfold call_unet, py_getitem.
  destruct (batch !! "original_sizes_hw") as [orig|]; simpl.
  2: { split; [by intros ?%elem_of_nil | by intros (? & ? & ? & ? & ? & ? & ? & _)]. }
  destruct (batch !! "crop_top_lefts") as [crop|]; simpl.
  2: { split; [by intros ?%elem_of_nil | by intros (? & ? & ? & ? & ? & ? & _ & ? & _)]. }
  destruct (batch !! "target_sizes_hw") as [target|]; simpl.
  2: { split; [by intros ?%elem_of_nil
              | by intros (? & ? & ? & ? & ? & ? & _ & _ & ? & _)]. }
  destruct (get_size_embeddings orig crop target (acc_device acc)) as [embs|e] eqn:Hg;
    simpl.
  2: { split.
       - intros [?|?%elem_of_nil]%elem_of_cons; done.
       - intros (? & ? & ? & ? & ? & ? & [= <-] & [= <-] & [= <-] & Hg' & _).
         rewrite Hg in Hg'. discriminate. }
  destruct (torch_cat cast 1 pool2 (to_dtype cast w embs)) as [v|e] eqn:Hv; simpl.
  2: { split.
       - intros [?|?%elem_of_nil]%elem_of_cons; done.
       - intros (? & ? & ? & ? & ? & ? & [= <-] & [= <-] & [= <-] & Hg' & Hv' & _).
         rewrite Hg in Hg'. injection Hg' as <-. rewrite Hv in Hv'. discriminate. }
  destruct (torch_cat cast 2 h1 h2) as [t|e] eqn:Ht; simpl.
  2: { split.
       - intros [?|?%elem_of_nil]%elem_of_cons; done.
       - by intros (? & ? & ? & ? & ? & ? & _ & _ & _ & _ & _ & ?). }
  split; [|intros _].
  - intros _. by exists orig, crop, target, embs, v, t.
  - destruct (unet_forward _ _ _ _); simpl;
      apply elem_of_cons; right; apply elem_of_cons; by left.
Qed.

(** X11: [call_unet] ends with a KeyError before any collaborator is
    called exactly when one of the three geometry fields is missing, and
    the error names the first one missing. *)
Theorem missing_geometry_field (acc : accelerator) (noisy_latents ts : tensor)
    (conds : tensor * tensor * tensor) (batch : gmap string pyval) (w : dtype)
    (k : string) :
  call_unet cast get_size_embeddings unet_forward acc noisy_latents ts conds batch w
  = ([], Raise (KeyError k))
  ↔ (k = "original_sizes_hw" ∧ batch !! "original_sizes_hw" = None)
    ∨ (k = "crop_top_lefts" ∧ is_Some (batch !! "original_sizes_hw")
       ∧ batch !! "crop_top_lefts" = None)
    ∨ (k = "target_sizes_hw" ∧ is_Some (batch !! "original_sizes_hw")
       ∧ is_Some (batch !! "crop_top_lefts")
       ∧ batch !! "target_sizes_hw" = None).
Proof.
  unfold call_unet, py_getitem. destruct conds as [[h1 h2] pool2].
  destruct (batch !! "original_sizes_hw") as [orig|]; simpl.
  2: { split.
       - intros [= <-]. by left.
       - intros [[-> _]|[(_ & [? ?] & _)|(_ & [? ?] & _)]]; done. }
  destruct (batch !! "crop_top_lefts") as [crop|]; simpl.
  2: { split.
       - intros [= <-]. right. left. eauto.
       - intros [[_ ?]|[(-> & _)|(_ & _ & [? ?] & _)]]; done. }
  destruct (batch !! "target_sizes_hw") as [target|]; simpl.
  2: { split.
       - intros [= <-]. right. right. eauto.
       - intros [[_ ?]|[(_ & _ & ?)|(-> & _)]]; done. }
  split.
  - destruct (get_size_embeddings _ _ _ _); simpl; [|discriminate].
    destruct (torch_cat cast 1 _ _); simpl; [|discriminate].
    destruct (torch_cat cast 2 _ _); simpl; [|discriminate].
    destruct (unet_forward _ _ _ _); discriminate.
  - intros [[_ ?]|[(_ & _ & ?)|(_ & _ & _ & ?)]]; done.
Qed.

(** X12: one training step on a batch, the assembler then the denoising
    invoker fed with its result, runs the text encoders at most once, and
    not at all when the first precomputed field holds a tensor, whether the
    step succeeds or fails. *)
Theorem step_runs_encoders_at_most_once (args : Args) (acc : accelerator)
    (batch : gmap string pyval) (toks : Tok * Tok) (tes : Enc * Enc) (w : dtype)
    (noisy_latents ts : tensor) :
  let step :=
    conds ← get_text_cond cast get_hidden_states_sdxl args acc batch toks tes w;
    call_unet cast get_size_embeddings unet_forward acc noisy_latents ts conds batch w in
  (encoder_runs (fst step) ≤ 1)%nat
  ∧ (absent_or_none batch "text_encoder_outputs1_list" = false ->
     encoder_runs (fst step) = 0%nat).
Proof.
  cbn zeta.
  assert (Hcall : ∀ conds tr,
            encoder_runs
              (tr ++ fst (call_unet cast get_size_embeddings unet_forward acc
                            noisy_latents ts conds batch w))
            = encoder_runs tr).
  { intros conds tr. unfold encoder_runs. rewrite filter_app, length_app.
    pose proof (call_unet_trace acc noisy_latents ts conds batch w) as Hin.
    repeat (apply elem_of_cons in Hin as [->|Hin]; [simpl; lia|]).
    by apply elem_of_nil in Hin. }
  assert (Hbind : ∀ trc (rc : res (tensor * tensor * tensor)),
            encoder_runs
              (fst (mbind (M := run)
                      (λ conds, call_unet cast get_size_embeddings unet_forward acc
                                  noisy_latents ts conds batch w) (trc, rc)))
            = encoder_runs trc).
  { intros trc [conds|e]; simpl; [|done].
    specialize (Hcall conds trc).
    by destruct (call_unet _ _ _ _ _ _ conds _ _). }
  destruct (get_text_cond cast get_hidden_states_sdxl args acc batch toks tes w)
    as [trc rc] eqn:Hcond.
  rewrite Hbind.
  destruct (absent_or_none batch "text_encoder_outputs1_list") eqn:Ha.
  - split; [|done].
    rewrite (get_text_cond_live _ _ _ _ _ _ _ _ Ha) in Hcond.
    destruct (batch !! "input_ids") as [[|i1]|];
      destruct (batch !! "input_ids2") as [[|i2]|];
      injection Hcond as <- _; unfold encoder_runs; simpl; lia.
  - assert (Htr : trc = []).
    { unfold get_text_cond, py_getitem in Hcond. rewrite Ha in Hcond.
      destruct (batch !! "text_encoder_outputs1_list") as [[|?]|]; simpl in Hcond;
        [by injection Hcond| |by injection Hcond].
      destruct (batch !! "text_encoder_outputs2_list") as [[|?]|]; simpl in Hcond;
        [by injection Hcond| |by injection Hcond].
      destruct (batch !! "text_encoder_pool2_list") as [[|?]|]; simpl in Hcond;
        by injection Hcond. }
    rewrite Htr. split; [unfold encoder_runs; simpl; lia | done].
Qed.
End CallUnetMore.

(** A pooled vector of shape (0,) does not stop the call: the denoiser
    receives the size embedding alone as its vector embedding. *)
Example call_unet_with_empty_pooled_vector :
  call_unet keep two_feature_embedding echo_vector cpu_accelerator latents timesteps
    (hidden1, hidden2, empty_vector) geometry_batch Float32
  = ([EvGetSizeEmbeddings; EvUnetForward],
     Ok (Tensor Cpu Float32 [1; 2]%nat [21; 22]%Z)).
Proof. vm_compute. reflexivity. Qed.

(** ** More on the loader, for any tokenizer *)

Section LoaderInvariants.
Context {V T : Type} {tk : Tokenizer T}.
Variable is_safetensors : string -> bool.
Variable load_file : string -> res (file_data (V := V)).
Variable torch_load : string -> res (file_data (V := V)).
Variable path_stem : string -> string.
Variable fresh_row : nat -> nat -> V.

Lemma setitem_length (w w' : list V) (i : Z) (x : V) :
  setitem w i x = Ok w' -> length w' = length w.
Proof.
  unfold setitem. repeat case_decide; intros [= <-]; by rewrite ?length_insert.
Qed.

Lemma assign_rows_length (ids : list Z) (e w w' : list V) :
  assign_rows w ids e = Ok w' -> length w' = length w.
Proof.
  revert e w. induction ids as [|i ids IH]; intros [|x e] w Hrun; simpl in Hrun;
    try (by injection Hrun as <-).
  bind_ok Hrun. rewrite (IH _ _ Hrun). by eapply setitem_length.
Qed.

Lemma assign_all_length (l : list (list Z * list V)) (w w' : list V) :
  assign_all w l = Ok w' -> length w' = length w.
Proof.
  revert w. induction l as [|[ids e] l IH]; intros w Hrun; simpl in Hrun.
  - by injection Hrun as <-.
  - bind_ok Hrun. rewrite (IH _ Hrun). by eapply assign_rows_length.
Qed.

Lemma resize_token_embeddings_ok (e : nat) (n : Z) (enc enc' : text_encoder (V := V)) :
  resize_token_embeddings fresh_row e n enc = Ok enc' ->
  te_module enc' = te_module enc
  ∧ Z.of_nat (length (input_embeddings enc')) = n.
Proof.
  unfold resize_token_embeddings. case_decide; [done|]. intros [= <-]. simpl.
  split; [done|]. rewrite length_app, length_take, length_fmap, length_seq. lia.
Qed.

(** The loop over two lists of files, one after the other. *)
Lemma register_files_app (args : Args) (st : ti_state) (fs1 fs2 : list string) :
  register_files is_safetensors load_file torch_load path_stem args st (fs1 ++ fs2)
  = st1 ← register_files is_safetensors load_file torch_load path_stem args st fs1;
    register_files is_safetensors load_file torch_load path_stem args st1 fs2.
Proof.
  revert st. induction fs1 as [|f fs1 IH]; intros st; simpl; [done|].
  destruct (register_file _ _ _ _ _ _ _); simpl; [apply IH | done].
Qed.

(** X13: for every tokenizer, a load that succeeds leaves the modules of
    both encoders as they were; without embedding files it changes nothing
    at all (the tables are not resized); with files each table ends with
    exactly [len(tokenizer)] rows. *)
Theorem load_keeps_tables_in_step (args : Args) (toks toks' : T * T)
    (encs encs' : text_encoder (V := V) * text_encoder (V := V)) :
  load_textual_inversion is_safetensors load_file torch_load path_stem fresh_row
    args toks encs = Ok (toks', encs') ->
  te_module encs'.1 = te_module encs.1
  ∧ te_module encs'.2 = te_module encs.2
  ∧ (textual_inversion_embeddings args = [] -> toks' = toks ∧ encs' = encs)
  ∧ (textual_inversion_embeddings args ≠ [] ->
     Z.of_nat (length (input_embeddings encs'.1)) = tok_len toks'.1
     ∧ Z.of_nat (length (input_embeddings encs'.2)) = tok_len toks'.2).
Proof.
  unfold load_textual_inversion.
  destruct (textual_inversion_embeddings args) as [|f files].
  - intros [= <- <-]. by repeat split.
  - intros Hrun. repeat bind_ok Hrun. injection Hrun as <- <-.
    repeat match goal with
           | H : resize_token_embeddings _ _ _ _ = Ok _ |- _ =>
               apply resize_token_embeddings_ok in H as [? ?]
           | H : assign_all _ _ = Ok _ |- _ => apply assign_all_length in H
           end.
    simpl. split; [congruence|]. split; [congruence|]. split; [done|].
    intros _. split; congruence.
Qed.

(** X14: the load stops at the first file that fails: when the files before
    it are accepted and it raises, the load raises the same exception,
    whatever files follow. *)
Theorem load_stops_at_first_failure (args : Args) (toks : T * T)
    (encs : text_encoder (V := V) * text_encoder (V := V))
    (fs1 fs2 : list string) (f : string) (st1 : ti_state) (e : exn) :
  textual_inversion_embeddings args = fs1 ++ f :: fs2 ->
  register_files is_safetensors load_file torch_load path_stem args
    (TiState toks [] []) fs1 = Ok st1 ->
  register_file is_safetensors load_file torch_load path_stem args st1 f = Raise e ->
  load_textual_inversion is_safetensors load_file torch_load path_stem fresh_row
    args toks encs = Raise e.
Proof.
  intros Hfiles H1 Hf. unfold load_textual_inversion.
  destruct (textual_inversion_embeddings args) as [|f0 files] eqn:Hl.
  - by destruct fs1.
  - rewrite Hfiles, register_files_app, H1. simpl. by rewrite Hf.
Qed.

(** X15: for every tokenizer, a file is accepted only if it was read, both
    tokenizers reported as many added tokens as its first tensor has rows,
    and both lists of ids are non-empty, start with their least id, are as
    long as the distance from first to last id plus one, and end at
    [len(tokenizer) - 1]. *)
Theorem accepted_file_passed_checks (args : Args) (st st' : ti_state) (f : string) :
  register_file is_safetensors load_file torch_load path_stem args st f = Ok st' ->
  ∃ e1 e2,
    file_embeds is_safetensors load_file torch_load f = Ok (e1, e2)
    ∧ let ss := file_token_strings path_stem args f e1 in
      let a1 := add_tokens (tokenizers st).1 ss in
      let a2 := add_tokens (tokenizers st).2 ss in
      a1.2 = Z.of_nat (length e1) ∧ a2.2 = Z.of_nat (length e1)
      ∧ st' = TiState (a1.1, a2.1)
                (token_ids_embeds1 st ++ [(convert_tokens_to_ids a1.1 ss, e1)])
                (token_ids_embeds2 st ++ [(convert_tokens_to_ids a2.1 ss, e2)])
      ∧ ids_pass (tok_len a1.1) (convert_tokens_to_ids a1.1 ss)
      ∧ ids_pass (tok_len a2.1) (convert_tokens_to_ids a2.1 ss).
Proof.
  unfold register_file. intros Hrun. bind_ok Hrun.
  match goal with x : (list V * list V)%type |- _ => destruct x as [e1 e2] end.
  exists e1, e2. split; [done|]. cbn zeta. unfold file_token_strings.
  set (ss := make_token_strings _ _) in *.
  destruct (add_tokens (tokenizers st).1 ss) as [tok1 n1].
  destruct (add_tokens (tokenizers st).2 ss) as [tok2 n2].
  cbn [fst snd].
  assert (Hids : ∀ (tok : T) ids o e,
            ids_ordered ids = Ok o -> py_assert o AssertIds1Ordered = Ok tt
            ∨ py_assert o AssertIds2Ordered = Ok tt ->
            ids_end tok ids = Ok e -> py_assert e AssertIds1End = Ok tt
            ∨ py_assert e AssertIds2End = Ok tt ->
            ids_pass (tok_len tok) ids).
  { intros tok ids o e Ho Hao He Hae.
    assert (Hne : ids ≠ []) by (by intros ->).
    destruct (ids_pass_checks tok ids Hne) as (o' & e' & Ho' & He' & Hiff).
    rewrite Ho in Ho'. rewrite He in He'. injection Ho' as <-. injection He' as <-.
    apply Hiff. split.
    - destruct o; [done|]. by destruct Hao.
    - destruct e; [done|]. by destruct Hae. }
  repeat bind_ok Hrun.
  repeat match goal with u : unit |- _ => destruct u end.
  match goal with
  | H : py_assert (_ && _) AssertNumAdded = Ok tt |- _ =>
      unfold py_assert in H;
      destruct (bool_decide (n1 = Z.of_nat (length e1))) eqn:Hn1; [|done];
      destruct (bool_decide (n2 = Z.of_nat (length e1))) eqn:Hn2; [|done]
  end.
  apply bool_decide_eq_true in Hn1, Hn2.
  injection Hrun as <-.
  split; [done|]. split; [done|]. split; [done|].
  split; eapply Hids; eauto.
Qed.

(** X16: when the mapping read from the first file, the one under
    "string_to_param" if there is one, lacks a tensor, the load fails with
    a KeyError that names it, "clip_l" before "clip_g", whatever the
    top-level mapping holds beside a nested one. *)
Theorem missing_tensor_fails_load (args : Args) (toks : T * T)
    (encs : text_encoder (V := V) * text_encoder (V := V))
    (f : string) (rest : list string) (data : file_data (V := V)) :
  textual_inversion_embeddings args = f :: rest ->
  (if is_safetensors f then load_file f else torch_load f) = Ok data ->
  let d := default (fd_tensors data) (fd_string_to_param data) in
  let outcome :=
    load_textual_inversion is_safetensors load_file torch_load path_stem fresh_row
      args toks encs in
  (d !! "clip_l" = None -> outcome = Raise (KeyError "clip_l"))
  ∧ (is_Some (d !! "clip_l") -> d !! "clip_g" = None ->
     outcome = Raise (KeyError "clip_g")).
Proof.
  intros Hfiles Hload. cbn zeta.
  assert (Hfe : file_embeds is_safetensors load_file torch_load f
                = (embeds1 ← tensor_getitem
                               (default (fd_tensors data) (fd_string_to_param data))
                               "clip_l";
                   embeds2 ← tensor_getitem
                               (default (fd_tensors data) (fd_string_to_param data))
                               "clip_g";
                   mret (embeds1, embeds2))).
  { unfold file_embeds. rewrite Hload. simpl. by destruct (fd_string_to_param data). }
  unfold load_textual_inversion. rewrite Hfiles. simpl. unfold register_file.
  rewrite Hfe. unfold tensor_getitem. split.
  - by intros ->.
  - intros [e1 ->] ->. done.
Qed.
End LoaderInvariants.

(** X13, witness: the load of "foo" with the tokenizer that permutes the
    new ids. *)
Lemma load_keeps_tables_in_step_witness :
  ∃ toks' encs',
    load_textual_inversion (tk := perm_tokenizer_ops) always_safetensors disk disk
      stem_is_path numbered_row (args_ti ["foo"]) (perm_start, perm_start)
      (TextEncoder (Module_ Cpu Float32) [0; 1], TextEncoder (Module_ (Accel 0) Float16) [0; 1])
    = Ok (toks', encs')
    ∧ te_module encs'.2 = Module_ (Accel 0) Float16
    ∧ Z.of_nat (length (input_embeddings encs'.1))
      = tok_len (Tokenizer := perm_tokenizer_ops) toks'.1.
Proof.
  eexists _, _. split; [vm_compute; reflexivity|].
  destruct (load_keeps_tables_in_step (tk := perm_tokenizer_ops) always_safetensors
              disk disk stem_is_path numbered_row (args_ti ["foo"])
              (perm_start, perm_start) _
              (TextEncoder (Module_ Cpu Float32) [0; 1],
               TextEncoder (Module_ (Accel 0) Float16) [0; 1]) _
              ltac:(vm_compute; reflexivity))
    as (_ & Hm & _ & Hlen).
  split; [exact Hm|]. exact (proj1 (Hlen ltac:(discriminate))).
Defined.

(** X14, witness: a file that cannot be read between two that can. *)
Lemma load_stops_at_first_failure_witness :
  load_textual_inversion always_safetensors disk disk stem_is_path numbered_row
    (args_ti ["foo"; "nowhere"; "short"]) (clip_tokenizer, clip_tokenizer)
    (clip_encoder, clip_encoder)
  = Raise (ExternalError "no such file").
Proof.
  eapply (load_stops_at_first_failure always_safetensors disk disk stem_is_path
            numbered_row (args_ti ["foo"; "nowhere"; "short"])
            (clip_tokenizer, clip_tokenizer) (clip_encoder, clip_encoder)
            ["foo"] ["short"] "nowhere").
  - reflexivity.
  - vm_compute. reflexivity.
  - vm_compute. reflexivity.
Defined.

(** X15, witness: the ids 2, 4, 3, 5 of the permuting tokenizer start with
    their least and end at the tokenizer's length minus one. *)
Lemma accepted_file_passed_checks_witness :
  ids_pass 6 [2; 4; 3; 5]%Z.
Proof.
  destruct (accepted_file_passed_checks (tk := perm_tokenizer_ops) always_safetensors
              disk disk stem_is_path (args_ti ["foo"])
              (TiState (perm_start, perm_start) [] []) _ "foo"
              ltac:(vm_compute; reflexivity))
    as (e1 & e2 & Hfe & _ & _ & _ & Hpass & _).
  vm_compute in Hfe. injection Hfe as <- <-. exact Hpass.
Defined.

(** X16, witness: the nested mapping has no tensor for encoder 2, the
    top-level one has. *)
Lemma missing_tensor_fails_load_witness :
  load_textual_inversion always_safetensors nested_without_clip_g
    nested_without_clip_g stem_is_path numbered_row (args_ti ["x"])
    (clip_tokenizer, clip_tokenizer) (clip_encoder, clip_encoder)
  = Raise (KeyError "clip_g").
Proof.
  apply (missing_tensor_fails_load always_safetensors nested_without_clip_g
           nested_without_clip_g stem_is_path numbered_row (args_ti ["x"])
           (clip_tokenizer, clip_tokenizer) (clip_encoder, clip_encoder)
           "x" [] _ eq_refl eq_refl).
  - by eexists.
  - reflexivity.
Defined.

(** ** The token strings of a file *)

Lemma pretty_N_go_nonempty (x : N) (s : string) :
  s ≠ EmptyString -> pretty_N_go x s ≠ EmptyString.
Proof.
  revert s. induction (N.lt_wf_0 x) as [x _ IH]; intros s Hs.
  destruct (decide (x = 0)%N) as [->|Hx]; [by rewrite pretty_N_go_0|].
  rewrite pretty_N_go_step by lia. apply IH; [apply N.div_lt; lia | done].
Qed.

Lemma pretty_nat_nonempty (n : nat) : pretty n ≠ EmptyString.
Proof.
  unfold pretty, pretty_nat, pretty, pretty_N. case_decide; [done|].
  rewrite pretty_N_go_step by lia. by apply pretty_N_go_nonempty.
Qed.

Lemma string_app_nil_r (s : string) : s +:+ EmptyString = s.
Proof.
  induction s as [|a s IH]; [done|].
  change (String a (s +:+ EmptyString) = String a s). by rewrite IH.
Qed.

Lemma make_token_strings_NoDup (s : string) (k : nat) :
  NoDup (make_token_strings s k).
Proof.
  unfold make_token_strings. apply NoDup_cons. split.
  - intros (i & Heq & _)%list_elem_of_fmap.
    rewrite <- (string_app_nil_r s) in Heq at 1.
    apply (inj (String.append s)) in Heq.
    by apply (pretty_nat_nonempty (i + 1)).
  - apply NoDup_fmap_2; [|apply NoDup_seq].
    intros i j Heq. apply (inj (String.append s)), (inj pretty) in Heq. lia.
Qed.

(** X17: the strings registered for a file are the label followed by the
    label with 1, 2, ... appended; they are pairwise distinct, and there
    are as many as vectors per token, but one when there is no vector. *)
Theorem make_token_strings_distinct (s : string) (k : nat) :
  NoDup (make_token_strings s k)
  ∧ length (make_token_strings s k) = (k `max` 1)%nat
  ∧ head (make_token_strings s k) = Some s
  ∧ ∀ i, (i < k - 1)%nat ->
      make_token_strings s k !! S i = Some (s +:+ pretty (S i)).
Proof.
  split; [apply make_token_strings_NoDup|]. unfold make_token_strings.
  split; [|split; [done|]].
  - simpl. rewrite length_fmap, length_seq. lia.
  - intros i Hi. simpl. rewrite list_lookup_fmap, lookup_seq_lt by done. simpl.
    do 3 f_equal. lia.
Qed.

(** ** More on the loader with the trainer's tokenizers *)

Section HfLoadMore.
Context {V : Type}.
Variable is_safetensors : string -> bool.
Variable load_file : string -> res (file_data (V := V)).
Variable torch_load : string -> res (file_data (V := V)).
Variable path_stem : string -> string.
Variable fresh_row : nat -> nat -> V.

(** X18: with a [textual_inversion_name] every file registers the same
    label, so a load of two or more files that each hold a vector always
    fails on the count assertion: at the first file if its strings are
    known, at the second otherwise. *)
Theorem name_override_conflicts_on_second_file (args : Args) (name : string)
    (f1 f2 : string) (rest : list string) (a1 a2 b1 b2 : list V)
    (toks : hf_tokenizer * hf_tokenizer)
    (encs : text_encoder (V := V) * text_encoder (V := V)) :
  textual_inversion_name args = Some name -> name ≠ EmptyString ->
  textual_inversion_embeddings args = f1 :: f2 :: rest ->
  file_embeds is_safetensors load_file torch_load f1 = Ok (a1, a2) -> a1 ≠ [] ->
  file_embeds is_safetensors load_file torch_load f2 = Ok (b1, b2) -> b1 ≠ [] ->
  load_textual_inversion is_safetensors load_file torch_load path_stem fresh_row
    args toks encs = Raise (AssertionError AssertNumAdded).
Proof.
  intros Hname Hne Hfiles Hfe1 Ha Hfe2 Hb.
  assert (Hbase : ∀ f, str_or (textual_inversion_name args) (path_stem f) = name).
  { intros f. rewrite Hname. simpl. by rewrite decide_False. }
  unfold load_textual_inversion. rewrite Hfiles. simpl.
  destruct (fresh_all_dec (vocab toks.1) (file_token_strings path_stem args f1 a1))
    as [Hf1|Hf1].
  2: { rewrite (register_file_hf_conflict _ _ _ _ _ _ _ a1 a2 Hfe1 Ha);
         [done | by intros [? ?]]. }
  destruct (fresh_all_dec (vocab toks.2) (file_token_strings path_stem args f1 a1))
    as [Hf2|Hf2].
  2: { rewrite (register_file_hf_conflict _ _ _ _ _ _ _ a1 a2 Hfe1 Ha);
         [done | by intros [? ?]]. }
  rewrite (register_file_hf_fresh _ _ _ _ _ (TiState toks [] []) _ a1 a2 Hfe1 Ha
             Hf1 Hf2).
  cbn [mbind res_bind].
  rewrite (register_file_hf_conflict _ _ _ _ _ _ _ b1 b2 Hfe2 Hb); [done|].
  intros [Hfresh _]. simpl in Hfresh.
  apply (fresh_all_member _ _ name) in Hfresh; [done| |].
  - unfold file_token_strings. rewrite Hbase. apply make_token_strings_base.
  - apply elem_of_app. right. unfold file_token_strings. rewrite Hbase.
    apply make_token_strings_base.
Qed.

(** X19: a single file with at least one vector for encoder 1 whose strings
    are in neither vocabulary always loads, given tables that are not
    longer than the vocabularies; both tokenizers end with the old
    vocabulary followed by the strings of the file. *)
Theorem new_label_loads (args : Args) (f : string) (e1 e2 : list V)
    (toks : hf_tokenizer * hf_tokenizer)
    (encs : text_encoder (V := V) * text_encoder (V := V)) :
  textual_inversion_embeddings args = [f] ->
  file_embeds is_safetensors load_file torch_load f = Ok (e1, e2) -> e1 ≠ [] ->
  let ss := file_token_strings path_stem args f e1 in
  Forall (λ s, (s ∉ vocab toks.1) ∧ (s ∉ vocab toks.2)) ss ->
  (length (input_embeddings encs.1) ≤ length (vocab toks.1))%nat ->
  (length (input_embeddings encs.2) ≤ length (vocab toks.2))%nat ->
  ∃ encs',
    load_textual_inversion is_safetensors load_file torch_load path_stem fresh_row
      args toks encs
    = Ok ((HfTokenizer (vocab toks.1 ++ ss) (unk_token_id toks.1),
           HfTokenizer (vocab toks.2 ++ ss) (unk_token_id toks.2)), encs').
Proof.
  intros Hfiles Hfe He ss Hnew Hold1 Hold2.
  assert (Hsss : all_token_strings path_stem args (textual_inversion_embeddings args)
                   [(e1, e2)] = ss).
  { rewrite Hfiles. unfold all_token_strings. simpl. by rewrite app_nil_r. }
  assert (Hfresh : fresh_all (vocab toks.1) ss ∧ fresh_all (vocab toks.2) ss).
  { split; (split; [apply make_token_strings_NoDup|]);
      (eapply Forall_impl; [exact Hnew|]); by intros s [? ?]. }
  destruct Hfresh as [Hf1 Hf2].
  eexists.
  rewrite (load_hf_fresh is_safetensors load_file torch_load path_stem fresh_row
             args [(e1, e2)] toks encs).
  - rewrite Hsss. reflexivity.
  - by rewrite Hfiles.
  - rewrite Hfiles. by repeat constructor.
  - by repeat constructor.
  - done.
  - done.
  - by rewrite Hsss.
  - by rewrite Hsss.
Qed.

(** X20: after a load that succeeded, over files with at least one vector
    for encoder 1, each registered string resolves through the first
    tokenizer to the row of the first table that holds its vector, the
    vectors being counted in the order of the strings; the same holds for
    encoder 2 when every file has as many vectors for it. *)
Theorem registered_string_finds_its_vector (args : Args)
    (embs : list (list V * list V)) (toks toks' : hf_tokenizer * hf_tokenizer)
    (encs encs' : text_encoder (V := V) * text_encoder (V := V)) :
  load_textual_inversion is_safetensors load_file torch_load path_stem fresh_row
    args toks encs = Ok (toks', encs') ->
  textual_inversion_embeddings args ≠ [] ->
  Forall2 (λ f e, file_embeds is_safetensors load_file torch_load f = Ok e)
    (textual_inversion_embeddings args) embs ->
  Forall (λ e, e.1 ≠ []) embs ->
  (length (input_embeddings encs.1) ≤ length (vocab toks.1))%nat ->
  (length (input_embeddings encs.2) ≤ length (vocab toks.2))%nat ->
  ∀ p s,
    all_token_strings path_stem args (textual_inversion_embeddings args) embs !! p
    = Some s ->
    (∃ x, concat (embs.*1) !! p = Some x
          ∧ input_embeddings encs'.1 !! Z.to_nat (hf_token_to_id toks'.1 s) = Some x)
    ∧ (Forall (λ e, length e.2 = length e.1) embs ->
       ∃ y, concat (embs.*2) !! p = Some y
            ∧ input_embeddings encs'.2 !! Z.to_nat (hf_token_to_id toks'.2 s) = Some y).
Proof.
  intros Hrun Hne Hfiles Hemb Hold1 Hold2 p s Hp.
  destruct (load_hf_ok_fresh _ _ _ _ _ _ _ _ _ _ Hrun Hne Hfiles Hemb) as [Hf1 Hf2].
  rewrite (load_hf_fresh is_safetensors load_file torch_load path_stem fresh_row
             args embs toks encs Hne Hfiles Hemb Hold1 Hold2 Hf1 Hf2) in Hrun.
  injection Hrun as <- <-.
  set (sss := all_token_strings path_stem args (textual_inversion_embeddings args) embs)
    in *.
  assert (HK : length sss = sum_list ((blocks1 embs).*1)).
  { apply all_token_strings_length; [by eapply Forall2_length | done]. }
  assert (Hplt : (p < length sss)%nat) by (by eapply lookup_lt_Some).
  assert (Hid : ∀ (v : list string) (u : Z), fresh_all v sss ->
            Z.to_nat (hf_token_to_id (HfTokenizer (v ++ sss) u) s)
            = (length v + p)%nat).
  { intros v u Hf.
    assert (Hl : (hf_token_to_id (HfTokenizer (v ++ sss) u) <$> sss) !! p
                 = Some (hf_token_to_id (HfTokenizer (v ++ sss) u) s))
      by (by rewrite list_lookup_fmap, Hp).
    rewrite (hf_ids_of_fresh _ _ _ Hf) in Hl. unfold iota in Hl.
    rewrite list_lookup_fmap, lookup_seq_lt in Hl by done.
    injection Hl as <-. simpl. lia. }
  assert (Hrow : ∀ (e : nat) (old : list V) (v : list string) (rows : list V),
            (length old ≤ length v)%nat ->
            (old ++ (fresh_row e <$> seq (length old) (length v - length old)) ++ rows)
              !! (length v + p)%nat = rows !! p).
  { intros e old v rows Hold. rewrite app_assoc, lookup_app_r;
      rewrite length_app, length_fmap, length_seq; [|lia]. f_equal. lia. }
  cbn [fst snd input_embeddings]. split.
  - rewrite (Hid _ _ Hf1), (Hrow 0%nat _ _ _ Hold1).
    rewrite (fill_exact _ (blocks1 embs)).
    + rewrite blocks1_tensors.
      assert (Hlen : length (concat (embs.*1)) = length sss).
      { rewrite <- blocks1_tensors.
        rewrite <- (fill_exact (fresh_row 0 <$> seq 0 (length sss)) (blocks1 embs)).
        - rewrite fill_length; rewrite length_fmap, length_seq; lia.
        - unfold blocks1. apply Forall_fmap, Forall_forall. by intros e _.
        - by rewrite length_fmap, length_seq. }
      destruct (lookup_lt_is_Some_2 (concat (embs.*1)) p) as [x Hx]; [lia|].
      exists x. by rewrite Hx.
    + unfold blocks1. apply Forall_fmap, Forall_forall. by intros e _.
    + by rewrite length_fmap, length_seq.
  - intros Hwf. rewrite (Hid _ _ Hf2), (Hrow 1%nat _ _ _ Hold2).
    assert (Hb2 : Forall (λ ke : nat * list V, length ke.2 = ke.1) (blocks2 embs)).
    { unfold blocks2. by apply Forall_fmap. }
    rewrite (fill_exact _ (blocks2 embs) Hb2)
      by (by rewrite length_fmap, length_seq, <- blocks1_sizes).
    rewrite blocks2_tensors.
    assert (Hlen : length (concat (embs.*2)) = length sss).
    { rewrite <- blocks2_tensors.
      rewrite <- (fill_exact (fresh_row 0 <$> seq 0 (length sss)) (blocks2 embs) Hb2)
        by (by rewrite length_fmap, length_seq, <- blocks1_sizes).
      rewrite fill_length; rewrite length_fmap, length_seq, <- ?blocks1_sizes; lia. }
    destruct (lookup_lt_is_Some_2 (concat (embs.*2)) p) as [y Hy]; [lia|].
    exists y. by rewrite Hy.
Qed.
End HfLoadMore.

(** X18, witness: "short" then "long", both registered as "tok". *)
Lemma name_override_conflicts_on_second_file_witness :
  load_textual_inversion always_safetensors disk disk stem_is_path numbered_row
    (args_ti_named "tok" ["short"; "long"]) (clip_tokenizer, clip_tokenizer)
    (clip_encoder, clip_encoder)
  = Raise (AssertionError AssertNumAdded).
Proof.
  apply (name_override_conflicts_on_second_file always_safetensors disk disk
           stem_is_path numbered_row (args_ti_named "tok" ["short"; "long"]) "tok"
           "short" "long" [] [30; 31] [40] [50] [60; 61]
           (clip_tokenizer, clip_tokenizer) (clip_encoder, clip_encoder)
           eq_refl ltac:(discriminate) eq_refl
           ltac:(vm_compute; reflexivity) ltac:(discriminate)
           ltac:(vm_compute; reflexivity) ltac:(discriminate)).
Defined.

(** X19, witness: "foo" is new to the tokenizer of three tokens. *)
Lemma new_label_loads_witness :
  ∃ encs',
    load_textual_inversion always_safetensors disk disk stem_is_path numbered_row
      (args_ti ["foo"]) (clip_tokenizer, clip_tokenizer) (clip_encoder, clip_encoder)
    = Ok ((HfTokenizer ["<unk>"; "a"; "b"; "foo"; "foo1"; "foo2"; "foo3"] 0,
           HfTokenizer ["<unk>"; "a"; "b"; "foo"; "foo1"; "foo2"; "foo3"] 0), encs').
Proof.
  exact (new_label_loads always_safetensors disk disk stem_is_path numbered_row
           (args_ti ["foo"]) "foo" [10; 11; 12; 13] [20; 21; 22; 23]
           (clip_tokenizer, clip_tokenizer) (clip_encoder, clip_encoder)
           eq_refl ltac:(vm_compute; reflexivity) ltac:(discriminate)
           ltac:(apply (bool_decide_unpack _); vm_compute; exact I)
           ltac:(simpl; lia) ltac:(simpl; lia)).
Defined.

(** X20, witness: after "short" and "long" are loaded, the string "long"
    leads to the row that holds the one vector of "long" for encoder 1. *)
Lemma registered_string_finds_its_vector_witness :
  ∃ toks' encs',
    load_textual_inversion always_safetensors disk disk stem_is_path numbered_row
      (args_ti ["short"; "long"]) (clip_tokenizer, clip_tokenizer)
      (clip_encoder, clip_encoder) = Ok (toks', encs')
    ∧ input_embeddings encs'.1 !! Z.to_nat (hf_token_to_id toks'.1 "long") = Some 50.
Proof.
  eexists _, _. split; [vm_compute; reflexivity|].
  destruct (registered_string_finds_its_vector always_safetensors disk disk
              stem_is_path numbered_row (args_ti ["short"; "long"])
              [([30; 31], [40]); ([50], [60; 61])]
              (clip_tokenizer, clip_tokenizer) _ (clip_encoder, clip_encoder) _
              ltac:(vm_compute; reflexivity) ltac:(discriminate)
              ltac:(repeat (constructor; [vm_compute; reflexivity|]); constructor)
              ltac:(repeat constructor; discriminate)
              ltac:(simpl; lia) ltac:(simpl; lia)
              2%nat "long" ltac:(vm_compute; reflexivity))
    as [(x & Hx & Hrow) _].
  vm_compute in Hx. injection Hx as <-. exact Hrow.
Defined.
